(** * JSON row parser of the import utility (internal/util/importutilv2/json)

    A shallow embedding of [row_parser.go]: the schema index built by
    [NewRowParser], the per-field coercion [parseEntity], the array element
    coercion [arrayToFieldData], the dynamic-field merge [combineDynamicRow]
    and the entry point [Parse], followed by the properties the
    specification states about them. *)

From Stdlib Require Import ZArith String Ascii List Lia Bool Permutation.
From stdpp Require Import base option list gmap strings.

Set Warnings "-register-all".
Open Scope string_scope.
Open Scope Z_scope.

(* ===================================================================== *)
(** ** schemapb: data types and field descriptors                         *)
(* ===================================================================== *)

(** [schemapb.DataType]: the tags the parser switches on.  [DataType_None]
    is the zero value, which the nil-safe getters return for a nil field. *)
Inductive DataType : Type :=
  | DataType_None
  | DataType_Bool
  | DataType_Int8
  | DataType_Int16
  | DataType_Int32
  | DataType_Int64
  | DataType_Float
  | DataType_Double
  | DataType_String
  | DataType_VarChar
  | DataType_Array
  | DataType_JSON
  | DataType_BinaryVector
  | DataType_FloatVector
  | DataType_Float16Vector.

#[global] Instance DataType_eq_dec : EqDecision DataType.
Proof. solve_decision. Defined.

(** [schemapb.FieldSchema], restricted to the attributes the parser reads.
    [Dim] stands for the dimensionality attribute of a vector field
    ([None] when it is not given or is not an integer). *)
Record FieldSchema : Type := mkField {
  FieldID      : Z;
  Name         : string;
  IsPrimaryKey : bool;
  AutoID       : bool;
  IsDynamic    : bool;
  DataType_    : DataType;
  ElementType_ : DataType;
  Dim          : option Z
}.

(** [schemapb.CollectionSchema]: the ordered list of field descriptors. *)
Record CollectionSchema : Type := mkSchema {
  Fields : list FieldSchema
}.

(** The generated getters are nil-safe: on a nil field they return the zero
    value.  A map lookup that misses yields nil, hence the [option]. *)
Definition GetFieldID (f : option FieldSchema) : Z :=
  match f with Some f => FieldID f | None => 0 end.
Definition GetName (f : option FieldSchema) : string :=
  match f with Some f => Name f | None => EmptyString end.
Definition GetAutoID (f : option FieldSchema) : bool :=
  match f with Some f => AutoID f | None => false end.
Definition GetDataType (f : option FieldSchema) : DataType :=
  match f with Some f => DataType_ f | None => DataType_None end.
Definition GetElementType (f : option FieldSchema) : DataType :=
  match f with Some f => ElementType_ f | None => DataType_None end.

(* ===================================================================== *)
(** ** Untyped input values                                               *)
(* ===================================================================== *)

(** The dynamic shapes an [any] holds after JSON decoding with numbers kept
    as [json.Number]: nil, bool, json.Number (the literal's text), string,
    [[]interface{}] and [map[string]interface{}]. *)
Inductive any : Type :=
  | AnyNil
  | AnyBool (b : bool)
  | AnyNumber (s : string)
  | AnyString (s : string)
  | AnySlice (l : list any)
  | AnyMap (m : gmap string any).

(** What the verb [%T] prints for a value. *)
Inductive GoType : Type :=
  | T_nil | T_bool | T_json_Number | T_string | T_slice | T_map.

Definition typeOf (v : any) : GoType :=
  match v with
  | AnyNil => T_nil
  | AnyBool _ => T_bool
  | AnyNumber _ => T_json_Number
  | AnyString _ => T_string
  | AnySlice _ => T_slice
  | AnyMap _ => T_map
  end.

(* ===================================================================== *)
(** ** Errors                                                             *)
(* ===================================================================== *)

(** The sentinel errors of [strconv], and its two argument errors. *)
Inductive NumErr : Type := ErrSyntax | ErrRange | ErrBase | ErrBitSize.

(** One constructor per place where the parser (or a library it calls) makes
    an error; the arguments are the values formatted into the message. *)
Inductive error : Type :=
  (* wrapTypeError: expected type '%s' for field '%s', got type '%T' with value '%v' *)
  | TypeError (dataType : DataType) (fieldName : string) (v : any)
  (* wrapDimError: expected dim '%d' for field '%s' with type '%s', got dim '%d' *)
  | DimError (dim : Z) (fieldName : string) (dataType : DataType) (actualDim : Z)
  (* wrapArrayValueTypeError: expected element type '%s' in array field, got type '%T' with value '%v' *)
  | ArrayValueTypeError (eleType : DataType) (v : any)
  (* invalid JSON format, each row should be a key-value map *)
  | NotKeyValueMap
  (* the primary key '%s' is auto-generated, no need to provide *)
  | AutoIDProvided (pkName : string)
  (* dynamic field is enabled, explicit specification of '%s' is not allowed *)
  | DynamicFieldSpecified (key : string)
  (* the field '%s' is not defined in schema *)
  | FieldNotDefined (key : string)
  (* value of field '%s' is missed *)
  | FieldMissed (fieldName : string)
  (* parse json failed, unsupport data type: %s *)
  | UnsupportedDataType (dataType : DataType)
  (* unsupported array data type '%s' *)
  | UnsupportedArrayType (eleType : DataType)
  (* strconv.NumError{Func, Num, Err} *)
  | NumError (func num : string) (err : NumErr)
  (* an error of encoding/json *)
  | JSONError (msg : string)
  (* an error of typeutil at construction *)
  | SchemaErr (msg : string).

(** [(T, error)] results: exactly one of the two is meaningful. *)
Inductive Result (A : Type) : Type :=
  | Ok (a : A)
  | Err (e : error).
Arguments Ok {A} a.
Arguments Err {A} e.

(** Sequencing with [if err != nil { return nil, err }] after each call;
    written [x ← c; k] below. *)
#[global] Instance Result_bind : MBind Result := fun A B k x =>
  match x with Ok a => k a | Err e => Err e end.
#[global] Instance Result_ret : MRet Result := fun A a => Ok a.

Definition is_Ok {A} (x : Result A) : Prop := exists a, x = Ok a.
Definition is_Err {A} (x : Result A) : Prop := exists e, x = Err e.
Definition isOk {A} (x : Result A) : bool :=
  match x with Ok _ => true | Err _ => false end.

(** Modelled from the spec: the error kinds of section 7, which the source
    does not distinguish by type (it only words the messages differently). *)
Inductive ErrorKind : Type :=
  | SchemaError | FormatError | SchemaViolation | TypeMismatch
  | DimensionMismatch | RangeError | ParseError | UnsupportedType.

Definition kindOf (e : error) : ErrorKind :=
  match e with
  | TypeError _ _ _ => TypeMismatch
  | DimError _ _ _ _ => DimensionMismatch
  | ArrayValueTypeError _ _ => TypeMismatch
  | NotKeyValueMap => FormatError
  | AutoIDProvided _ => SchemaViolation
  | DynamicFieldSpecified _ => SchemaViolation
  | FieldNotDefined _ => SchemaViolation
  | FieldMissed _ => SchemaViolation
  | UnsupportedDataType _ => UnsupportedType
  | UnsupportedArrayType _ => UnsupportedType
  | NumError _ _ ErrRange => RangeError
  | NumError _ _ _ => ParseError
  | JSONError _ => ParseError
  | SchemaErr _ => SchemaError
  end.

(* ===================================================================== *)
(** ** strconv: integer literals                                          *)
(* ===================================================================== *)

Module strconv.

Definition byteZ (a : ascii) : Z := Z.of_N (N_of_ascii a).

(** [lower(c)] is [c | ('x' - 'X')]. *)
Definition lower (c : Z) : Z := Z.lor c 32.

Definition isDigit (c : Z) : bool := (48 <=? c) && (c <=? 57).
Definition isLetter (c : Z) : bool := (97 <=? lower c) && (lower c <=? 122).

(** The digit loop of [ParseUint]: [n] is the value so far, [us] whether an
    underscore was skipped.  An overflow ends the loop at once. *)
Fixpoint digits (base0 : bool) (base maxVal : Z) (s : string) (n : Z) (us : bool)
  : NumErr + Z * bool :=
  match s with
  | EmptyString => inr (n, us)
  | String a s' =>
      let c := byteZ a in
      if (c =? 95) && base0 then digits base0 base maxVal s' n true
      else
        let d := if isDigit c then Some (c - 48)
                 else if isLetter c then Some (lower c - 97 + 10)
                 else None in
        match d with
        | None => inl ErrSyntax
        | Some d =>
            if base <=? d then inl ErrSyntax
            else if maxVal <? n * base + d then inl ErrRange
            else digits base0 base maxVal s' (n * base + d) us
        end
    end.

Definition head (s : string) : Z :=
  match s with String a _ => byteZ a | EmptyString => -1 end.
Definition tail (s : string) : string :=
  match s with String _ s' => s' | EmptyString => EmptyString end.
Definition second (s : string) : Z := head (tail s).
Definition len (s : string) : Z := Z.of_nat (String.length s).

Definition isPrefixLetter (c : Z) : bool :=
  (lower c =? 98) || (lower c =? 111) || (lower c =? 120).

(** The scan of [underscoreOK]; [saw] is 94 at the start, 48 after a digit
    or base prefix, 95 after an underscore and 33 after anything else. *)
Fixpoint underscoreScan (hex : bool) (s : string) (saw : Z) : bool :=
  match s with
  | EmptyString => negb (saw =? 95)
  | String a s' =>
      let c := byteZ a in
      if isDigit c || (hex && (97 <=? lower c) && (lower c <=? 102))
      then underscoreScan hex s' 48
      else if c =? 95
      then (if saw =? 48 then underscoreScan hex s' 95 else false)
      else if saw =? 95 then false
      else underscoreScan hex s' 33
  end.

Definition underscoreOK (s : string) : bool :=
  let s := if (1 <=? len s) && ((head s =? 45) || (head s =? 43)) then tail s else s in
  if (2 <=? len s) && (head s =? 48) && isPrefixLetter (second s)
  then underscoreScan (lower (second s) =? 120) (tail (tail s)) 48
  else underscoreScan false s 94.

(** The base and the digits left once a base-0 prefix is taken off. *)
Definition splitBase (s : string) : Z * string :=
  if head s =? 48 then
    if (3 <=? len s) && (lower (second s) =? 98) then (2, tail (tail s))
    else if (3 <=? len s) && (lower (second s) =? 111) then (8, tail (tail s))
    else if (3 <=? len s) && (lower (second s) =? 120) then (16, tail (tail s))
    else (8, tail s)
  else (10, s).

(** The two results of [strconv.ParseUint]: the value and the error. *)
Definition parseUint (s : string) (base bitSize : Z) : Z * option NumErr :=
  if len s =? 0 then (0, Some ErrSyntax)
  else
    let base0 := base =? 0 in
    let pre := if (2 <=? base) && (base <=? 36) then Some (base, s)
               else if base0 then Some (splitBase s)
               else None in
    match pre with
    | None => (0, Some ErrBase)
    | Some (b, ds) =>
        if (bitSize <? 0) || (64 <? bitSize) then (0, Some ErrBitSize)
        else
          let bitSize := if bitSize =? 0 then 64 else bitSize in
          let maxVal := 2 ^ bitSize - 1 in
          match digits base0 b maxVal ds 0 false with
          | inl ErrRange => (maxVal, Some ErrRange)
          | inl e => (0, Some e)
          | inr (n, us) =>
              if us && negb (underscoreOK s) then (0, Some ErrSyntax)
              else (n, None)
          end
    end.

Definition ParseUint (s : string) (base bitSize : Z) : Result Z :=
  match parseUint s base bitSize with
  | (n, None) => Ok n
  | (_, Some e) => Err (NumError "ParseUint" s e)
  end.

(** [strconv.ParseInt]: the sign is taken off, the rest goes through
    [ParseUint], and the value is checked against the signed range. *)
Definition ParseInt (s : string) (base bitSize : Z) : Result Z :=
  if len s =? 0 then Err (NumError "ParseInt" s ErrSyntax)
  else
    let neg := head s =? 45 in
    let s1 := if (head s =? 43) || neg then tail s else s in
    let '(un, err) := parseUint s1 base bitSize in
    match err with
    | Some ErrSyntax => Err (NumError "ParseInt" s ErrSyntax)
    | Some ErrBase => Err (NumError "ParseInt" s ErrBase)
    | Some ErrBitSize => Err (NumError "ParseInt" s ErrBitSize)
    | _ =>
        let bitSize := if bitSize =? 0 then 64 else bitSize in
        let cutoff := 2 ^ (bitSize - 1) in
        if negb neg && (cutoff <=? un) then Err (NumError "ParseInt" s ErrRange)
        else if neg && (cutoff <? un) then Err (NumError "ParseInt" s ErrRange)
        else Ok (if neg then - un else un)
    end.

End strconv.

(* ===================================================================== *)
(** ** Libraries kept abstract, and the order of [range] over a map       *)
(* ===================================================================== *)

(** A byte is an integer in [0, 256); [[]byte] is a list of them. *)
Definition byte_of (num : Z) : Z := num mod 256.
Definition bytesOf (s : string) : list Z :=
  map strconv.byteZ (list_ascii_of_string s).

(** [intN(num)]: the conversion of an [int64] to a signed [bits]-bit integer
    wraps around. *)
Definition toInt (bits : Z) (num : Z) : Z :=
  (num + 2 ^ (bits - 1)) mod 2 ^ bits - 2 ^ (bits - 1).

(** The floating-point side of [strconv] and [encoding/json] are libraries
    outside the repository; the parser only passes values through them, so
    they are an interface here. *)
Class GoLib : Type := {
  float32 : Type;
  float64 : Type;
  (* float32(num) *)
  to_float32 : float64 -> float32;
  (* strconv.ParseFloat(s, bitSize) *)
  ParseFloat : string -> Z -> Result float64;
  (* json.Marshal(v) *)
  json_Marshal : any -> Result (list Z);
  (* json.Unmarshal(data, &dummy) *)
  json_Unmarshal : list Z -> Result any
}.

(** [for key, value := range m] visits every entry of [m] once, in an order
    the language leaves open.  A [MapRange] is one such choice of order for
    every map. *)
Record MapRange : Type := mkRange {
  range_of : forall V : Type, gmap string V -> list (string * V);
  range_perm : forall (V : Type) (m : gmap string V), range_of V m ≡ₚ map_to_list m
}.
Arguments range_of _ {V} m.

Definition range_fwd : MapRange :=
  mkRange (fun V m => map_to_list m) (fun V m => reflexivity _).

Definition range_rev : MapRange :=
  mkRange (fun V m => reverse (map_to_list m)) (fun V m => reverse_Permutation _).

(** [lo.KeyBy] and [lo.SliceToMap]: a later element overwrites an earlier one
    with the same key. *)
Definition KeyBy {K V : Type} `{Countable K} (collection : list V) (iteratee : V -> K)
  : gmap K V :=
  foldl (fun m v => <[iteratee v := v]> m) ∅ collection.

Definition SliceToMap {T K V : Type} `{Countable K} (collection : list T)
    (transform : T -> K * V) : gmap K V :=
  foldl (fun m t => <[(transform t).1 := (transform t).2]> m) ∅ collection.

(** The loops of the parser stop at the first error. *)
Fixpoint mapM {A B : Type} (f : A -> Result B) (l : list A) : Result (list B) :=
  match l with
  | [] => Ok []
  | x :: l' => y ← f x; ys ← mapM f l'; Ok (y :: ys)
  end.

Fixpoint foldM {A S : Type} (f : S -> A -> Result S) (l : list A) (s : S) : Result S :=
  match l with
  | [] => Ok s
  | x :: l' => s' ← f s x; foldM f l' s'
  end.

(* ===================================================================== *)
(** ** typeutil: the schema helpers used at construction                  *)
(* ===================================================================== *)

Module typeutil.

Definition IsVectorType (dataType : DataType) : bool :=
  match dataType with
  | DataType_BinaryVector | DataType_FloatVector | DataType_Float16Vector => true
  | _ => false
  end.

(** Modelled from the spec: [typeutil.GetVectorFieldSchema] is not part of
    the sources at hand; section 4.1 has it locate the vector-typed field
    and fail when there is none. *)
Definition GetVectorFieldSchema (schema : CollectionSchema) : Result FieldSchema :=
  match find (fun f => IsVectorType (DataType_ f)) (Fields schema) with
  | Some f => Ok f
  | None => Err (SchemaErr "vector field is not found")
  end.

(** Modelled from the spec: [typeutil.GetDim] is not part of the sources at
    hand; section 4.1 has it fail when the dimensionality is unspecified or
    invalid. *)
Definition GetDim (field : FieldSchema) : Result Z :=
  match Dim field with
  | Some d => Ok d
  | None => Err (SchemaErr "dim not found")
  end.

(** Modelled from the spec: [typeutil.GetPrimaryFieldSchema] is not part of
    the sources at hand; section 4.1 has it locate the primary-key field
    and fail when there is none. *)
Definition GetPrimaryFieldSchema (schema : CollectionSchema) : Result FieldSchema :=
  match find IsPrimaryKey (Fields schema) with
  | Some f => Ok f
  | None => Err (SchemaErr "primary field is not found")
  end.

(** Modelled from the spec: [typeutil.GetDynamicField] is not part of the
    sources at hand; section 3 has it return the catch-all field, or nil. *)
Definition GetDynamicField (schema : CollectionSchema) : option FieldSchema :=
  find IsDynamic (Fields schema).

End typeutil.

(* ===================================================================== *)
(** ** The schema index                                                   *)
(* ===================================================================== *)

Record rowParser : Type := mkRowParser {
  dim          : Z;
  id2Field     : gmap Z FieldSchema;
  name2FieldID : gmap string Z;
  pkField      : option FieldSchema;
  dynamicField : option FieldSchema
}.

(** The name map once the auto-generated primary key and the dynamic field
    are taken out (the two [delete] calls of [NewRowParser]). *)
Definition explicitNames (fields : list FieldSchema) (pkField : FieldSchema)
    (dynamicField : option FieldSchema) : gmap string Z :=
  let name2FieldID := SliceToMap fields (fun field => (Name field, FieldID field)) in
  let name2FieldID :=
    if AutoID pkField then delete (Name pkField) name2FieldID else name2FieldID in
  match dynamicField with
  | Some d => delete (Name d) name2FieldID
  | None => name2FieldID
  end.

Definition NewRowParser (schema : CollectionSchema) : Result rowParser :=
  let id2Field := KeyBy (Fields schema) FieldID in
  vecField ← typeutil.GetVectorFieldSchema schema;
  dim ← typeutil.GetDim vecField;
  pkField ← typeutil.GetPrimaryFieldSchema schema;
  let dynamicField := typeutil.GetDynamicField schema in
  Ok {| dim := dim;
        id2Field := id2Field;
        name2FieldID := explicitNames (Fields schema) pkField dynamicField;
        pkField := Some pkField;
        dynamicField := dynamicField |}.

(* ===================================================================== *)
(** ** The record decoder                                                 *)
(* ===================================================================== *)

Section Decoder.
Context `{L : GoLib}.

(** [schemapb.ScalarField]: one homogeneous sequence per element type. *)
Inductive ScalarField : Type :=
  | ScalarField_BoolData (data : list bool)
  | ScalarField_IntData (data : list Z)
  | ScalarField_LongData (data : list Z)
  | ScalarField_FloatData (data : list float32)
  | ScalarField_DoubleData (data : list float64)
  | ScalarField_StringData (data : list string).

(** The dynamic type of what [parseEntity] returns as [any]. *)
Inductive Value : Type :=
  | V_bool (b : bool)
  | V_int8 (n : Z)
  | V_int16 (n : Z)
  | V_int32 (n : Z)
  | V_int64 (n : Z)
  | V_float32 (x : float32)
  | V_float64 (x : float64)
  | V_bytes (bs : list Z)
  | V_float32s (xs : list float32)
  | V_string (s : string)
  | V_ScalarField (sf : ScalarField).

(** [type Row = map[int64]any] *)
Abbreviation Row := (gmap Z Value).

Definition wrapTypeError (r : rowParser) (v : any) (fieldID : Z) : error :=
  let field := id2Field r !! fieldID in
  TypeError (GetDataType field) (GetName field) v.

Definition wrapDimError (r : rowParser) (actualDim : Z) (fieldID : Z) : error :=
  let field := id2Field r !! fieldID in
  DimError (dim r) (GetName field) (GetDataType field) actualDim.

Definition wrapArrayValueTypeError (v : any) (eleType : DataType) : error :=
  ArrayValueTypeError eleType v.

(** The scalar cases share one shape: assert [json.Number], parse, convert. *)
Definition parseIntField (r : rowParser) (fieldID : Z) (obj : any) (bitSize : Z)
  : Result Z :=
  match obj with
  | AnyNumber value => strconv.ParseInt value 0 bitSize
  | _ => Err (wrapTypeError r obj fieldID)
  end.

Definition parseFloatField (r : rowParser) (fieldID : Z) (obj : any) (bitSize : Z)
  : Result float64 :=
  match obj with
  | AnyNumber value => ParseFloat value bitSize
  | _ => Err (wrapTypeError r obj fieldID)
  end.

(** One turn of the loop of a byte vector (binary and float16). *)
Definition parseByteElem (r : rowParser) (fieldID : Z) (e : any) : Result Z :=
  match e with
  | AnyNumber value => num ← strconv.ParseUint value 0 8; Ok (byte_of num)
  | _ => Err (wrapTypeError r e fieldID)
  end.

(** One turn of the loop of a float vector. *)
Definition parseFloat32Elem (r : rowParser) (fieldID : Z) (e : any) : Result float32 :=
  match e with
  | AnyNumber value => num ← ParseFloat value 32; Ok (to_float32 num)
  | _ => Err (wrapTypeError r e fieldID)
  end.

Definition arrayToFieldData (arr : list any) (eleType : DataType) : Result ScalarField :=
  let bad := wrapArrayValueTypeError (AnySlice arr) eleType in
  match eleType with
  | DataType_Bool =>
      values ← mapM (fun e => match e with
                              | AnyBool value => Ok value
                              | _ => Err bad end) arr;
      Ok (ScalarField_BoolData values)
  | DataType_Int8 | DataType_Int16 | DataType_Int32 =>
      values ← mapM (fun e => match e with
                              | AnyNumber value =>
                                  num ← strconv.ParseInt value 0 32; Ok (toInt 32 num)
                              | _ => Err bad end) arr;
      Ok (ScalarField_IntData values)
  | DataType_Int64 =>
      values ← mapM (fun e => match e with
                              | AnyNumber value => strconv.ParseInt value 0 64
                              | _ => Err bad end) arr;
      Ok (ScalarField_LongData values)
  | DataType_Float =>
      values ← mapM (fun e => match e with
                              | AnyNumber value =>
                                  num ← ParseFloat value 32; Ok (to_float32 num)
                              | _ => Err bad end) arr;
      Ok (ScalarField_FloatData values)
  | DataType_Double =>
      values ← mapM (fun e => match e with
                              | AnyNumber value => ParseFloat value 64
                              | _ => Err bad end) arr;
      Ok (ScalarField_DoubleData values)
  | DataType_VarChar | DataType_String =>
      values ← mapM (fun e => match e with
                              | AnyString value => Ok value
                              | _ => Err bad end) arr;
      Ok (ScalarField_StringData values)
  | _ => Err (UnsupportedArrayType eleType)
  end.

Definition parseEntity (r : rowParser) (fieldID : Z) (obj : any) : Result Value :=
  let len (arr : list any) : Z := Z.of_nat (length arr) in
  match GetDataType (id2Field r !! fieldID) with
  | DataType_Bool =>
      match obj with
      | AnyBool b => Ok (V_bool b)
      | _ => Err (wrapTypeError r obj fieldID)
      end
  | DataType_Int8 =>
      num ← parseIntField r fieldID obj 8; Ok (V_int8 (toInt 8 num))
  | DataType_Int16 =>
      num ← parseIntField r fieldID obj 16; Ok (V_int16 (toInt 16 num))
  | DataType_Int32 =>
      num ← parseIntField r fieldID obj 32; Ok (V_int32 (toInt 32 num))
  | DataType_Int64 =>
      num ← parseIntField r fieldID obj 64; Ok (V_int64 num)
  | DataType_Float =>
      num ← parseFloatField r fieldID obj 32; Ok (V_float32 (to_float32 num))
  | DataType_Double =>
      num ← parseFloatField r fieldID obj 64; Ok (V_float64 num)
  | DataType_BinaryVector =>
      match obj with
      | AnySlice arr =>
          if decide (len arr * 8 ≠ dim r)
          then Err (wrapDimError r (len arr * 8) fieldID)
          else vec ← mapM (parseByteElem r fieldID) arr; Ok (V_bytes vec)
      | _ => Err (wrapTypeError r obj fieldID)
      end
  | DataType_FloatVector =>
      match obj with
      | AnySlice arr =>
          if decide (len arr ≠ dim r)
          then Err (wrapDimError r (len arr) fieldID)
          else vec ← mapM (parseFloat32Elem r fieldID) arr; Ok (V_float32s vec)
      | _ => Err (wrapTypeError r obj fieldID)
      end
  | DataType_Float16Vector =>
      match obj with
      | AnySlice arr =>
          if decide (len arr `quot` 2 ≠ dim r)
          then Err (wrapDimError r (len arr `quot` 2) fieldID)
          else vec ← mapM (parseByteElem r fieldID) arr; Ok (V_bytes vec)
      | _ => Err (wrapTypeError r obj fieldID)
      end
  | DataType_String | DataType_VarChar =>
      match obj with
      | AnyString value => Ok (V_string value)
      | _ => Err (wrapTypeError r obj fieldID)
      end
  | DataType_JSON =>
      match obj with
      | AnyString value =>
          _ ← json_Unmarshal (bytesOf value); Ok (V_bytes (bytesOf value))
      | AnyMap mp =>
          bs ← json_Marshal (AnyMap mp); Ok (V_bytes bs)
      | _ => Err (wrapTypeError r obj fieldID)
      end
  | DataType_Array =>
      match obj with
      | AnySlice arr =>
          scalarFieldData ←
            arrayToFieldData arr (GetElementType (id2Field r !! fieldID));
          Ok (V_ScalarField scalarFieldData)
      | _ => Err (wrapTypeError r obj fieldID)
      end
  | DataType_None => Err (UnsupportedDataType DataType_None)
  end.

(** [combineDynamicRow] writes the dynamic field's slot of [row]; the row it
    returns is [row] after the call. *)
Definition combineDynamicRow (r : rowParser) (dynamicValues : gmap string any)
    (row : Row) : Result Row :=
  let dynamicFieldID := GetFieldID (dynamicField r) in
  if decide (0 < Z.of_nat (size dynamicValues)) then
    data ← parseEntity r dynamicFieldID (AnyMap dynamicValues);
    Ok (<[dynamicFieldID := data]> row)
  else
    Ok (<[dynamicFieldID := V_string "{}"]> row).

(** The body of the loop over the record: the state is the row built so far
    and the side buffer of dynamic values. *)
Definition parsePair (r : rowParser) (st : Row * gmap string any)
    (kv : string * any) : Result (Row * gmap string any) :=
  let '(row, dynamicValues) := st in
  let '(key, value) := kv in
  match name2FieldID r !! key with
  | Some fieldID =>
      data ← parseEntity r fieldID value;
      Ok (<[fieldID := data]> row, dynamicValues)
  | None =>
      match dynamicField r with
      | Some d =>
          if decide (key = Name d) then Err (DynamicFieldSpecified key)
          else Ok (row, <[key := value]> dynamicValues)
      | None => Err (FieldNotDefined key)
      end
  end.

(** The body of the loop over [name2FieldID]. *)
Definition checkField (row : Row) (_ : unit) (entry : string * Z) : Result unit :=
  let '(fieldName, fieldID) := entry in
  match row !! fieldID with
  | Some _ => Ok tt
  | None => Err (FieldMissed fieldName)
  end.

Definition Parse (rng : MapRange) (r : rowParser) (raw : any) : Result Row :=
  match raw with
  | AnyMap stringMap =>
      if bool_decide (is_Some (stringMap !! GetName (pkField r)))
         && GetAutoID (pkField r)
      then Err (AutoIDProvided (GetName (pkField r)))
      else
        '(row, dynamicValues) ← foldM (parsePair r) (range_of rng stringMap) (∅, ∅);
        _ ← foldM (checkField row) (range_of rng (name2FieldID r)) tt;
        match dynamicField r with
        | None => Ok row
        | Some _ => combineDynamicRow r dynamicValues row
        end
  | _ => Err NotKeyValueMap
  end.

End Decoder.

Abbreviation Row := (gmap Z Value).

(* ===================================================================== *)
(** ** Sample library answers and schemas, to run the decoder on examples *)
(* ===================================================================== *)

Module Sample.

Definition isPlain (a : ascii) : bool :=
  let c := strconv.byteZ a in
  (32 <=? c) && (c <? 127) && negb (c =? 34) && negb (c =? 92)
  && negb (c =? 60) && negb (c =? 62) && negb (c =? 38).

Definition isDecimal (s : string) : bool :=
  let cs := list_ascii_of_string s in
  negb (strconv.len s =? 0)
  && forallb (fun a => strconv.isDigit (strconv.byteZ a)) cs
  && ((strconv.len s =? 1) || negb (strconv.head s =? 48)).

Definition dquote : string := String (ascii_of_nat 34) EmptyString.

Definition quote (s : string) : option string :=
  if forallb isPlain (list_ascii_of_string s)
  then Some (dquote ++ s ++ dquote)%string
  else None.

Fixpoint join (sep : string) (l : list string) : string :=
  match l with
  | [] => EmptyString
  | [x] => x
  | x :: l' => (x ++ sep ++ join sep l')%string
  end.

(** The text [json.Marshal] gives, for the values on which it is easy to
    say: plain strings, decimal numbers, and objects of at most one entry
    (so that no key order is involved).  [None] elsewhere. *)
Fixpoint render (v : any) : option string :=
  match v with
  | AnyNil => Some "null"
  | AnyBool b => Some (if b then "true" else "false")
  | AnyNumber s => if isDecimal s then Some s else None
  | AnyString s => quote s
  | AnySlice l =>
      es ← foldr (fun x acc => e ← render x; es ← acc; Some (e :: es)) (Some []) l;
      Some ("[" ++ join "," es ++ "]")%string
  | AnyMap m =>
      es ← map_fold (fun k x acc =>
                       q ← quote k; e ← render x; es ← acc;
                       Some ((q ++ ":" ++ e)%string :: es)) (Some []) m;
      if (length es <=? 1)%nat then Some ("{" ++ join "," es ++ "}")%string else None
  end.

(** Floats are kept as integers, and only integer literals are answered;
    only the JSON texts used below are recognised. *)
Definition lib : GoLib := {|
  float32 := Z;
  float64 := Z;
  to_float32 := fun x => x;
  ParseFloat := fun s _ =>
    match strconv.ParseInt s 10 64 with
    | Ok n => Ok n
    | Err _ => Err (NumError "ParseFloat" s ErrSyntax)
    end;
  json_Marshal := fun v =>
    match render v with
    | Some s => Ok (bytesOf s)
    | None => Err (JSONError "json: unsupported value")
    end;
  json_Unmarshal := fun data =>
    if decide (data = bytesOf "{}") then Ok (AnyMap ∅)
    else if decide (data = bytesOf "null") then Ok AnyNil
    else Err (JSONError "invalid character")
|}.

Definition field (id : Z) (name : string) (dt : DataType) : FieldSchema :=
  mkField id name false false false dt DataType_None None.

Definition idField (auto : bool) : FieldSchema :=
  mkField 100 "id" true auto false DataType_Int64 DataType_None None.
Definition vectorField (dt : DataType) (d : Z) : FieldSchema :=
  mkField 101 "vector" false false false dt DataType_None (Some d).
Definition metaField : FieldSchema :=
  mkField 102 "$meta" false false true DataType_JSON DataType_None None.

(** id (primary key), vector (float vector of dim 2) and the dynamic field. *)
Definition dynSchema : CollectionSchema :=
  mkSchema [idField false; vectorField DataType_FloatVector 2; metaField].

(** The same without a dynamic field. *)
Definition plainSchema : CollectionSchema :=
  mkSchema [idField false; vectorField DataType_FloatVector 2].

(** The primary key is auto-generated. *)
Definition autoSchema : CollectionSchema :=
  mkSchema [idField true; vectorField DataType_FloatVector 2].

(** The vector is a float16 vector of dim 2. *)
Definition f16Schema : CollectionSchema :=
  mkSchema [idField false; vectorField DataType_Float16Vector 2].

(** Two fields, [a] and [b], bear the same ID. *)
Definition sharedIdSchema : CollectionSchema :=
  mkSchema [mkField 1 "a" true false false DataType_Int64 DataType_None None;
            mkField 1 "b" false false false DataType_Int64 DataType_None None;
            vectorField DataType_FloatVector 2].

Definition parserOf (schema : CollectionSchema) : rowParser :=
  match NewRowParser schema with
  | Ok r => r
  | Err _ => mkRowParser 0 ∅ ∅ None None
  end.

Definition record (kvs : list (string * any)) : gmap string any := list_to_map kvs.

Definition vec2 : any := AnySlice [AnyNumber "1"; AnyNumber "2"].

End Sample.

(* ===================================================================== *)
(** ** Vocabulary of the statements                                       *)
(* ===================================================================== *)

(** What an error's message shows after "got type" and "with value": the
    [%T] and [%v] arguments of the two type-error wrappers. *)
Definition gotValue (e : error) : option any :=
  match e with
  | TypeError _ _ v => Some v
  | ArrayValueTypeError _ v => Some v
  | _ => None
  end.

Definition gotType (e : error) : option GoType := typeOf <$> gotValue e.

Section Vocabulary.
Context `{L : GoLib}.

(** The length of a list as each vector encoding scales it before the
    comparison with [dim]. *)
Definition actualDim (dataType : DataType) (arr : list any) : Z :=
  let n := Z.of_nat (length arr) in
  match dataType with
  | DataType_BinaryVector => n * 8
  | DataType_Float16Vector => n `quot` 2
  | _ => n
  end.

(** An element a byte vector accepts, and one a float vector accepts. *)
Definition isByteElem (e : any) : bool :=
  match e with
  | AnyNumber s => isOk (strconv.ParseUint s 0 8)
  | _ => false
  end.

Definition isFloat32Elem (e : any) : bool :=
  match e with
  | AnyNumber s => isOk (ParseFloat s 32)
  | _ => false
  end.

Definition wellTypedElem (dataType : DataType) (e : any) : bool :=
  match dataType with
  | DataType_FloatVector => isFloat32Elem e
  | _ => isByteElem e
  end.

(** An element an array of int8, int16 or int32 accepts. *)
Definition isInt32Elem (e : any) : bool :=
  match e with
  | AnyNumber s => isOk (strconv.ParseInt s 0 32)
  | _ => false
  end.

(** The loop body of the int8/int16/int32 case of [arrayToFieldData], for
    a given type error. *)
Definition int32Elem (bad : error) (e : any) : Result Z :=
  match e with
  | AnyNumber value => num ← strconv.ParseInt value 0 32; Ok (toInt 32 num)
  | _ => Err bad
  end.

(** The guard before the loop of [Parse]. *)
Definition pkSupplied (r : rowParser) (stringMap : gmap string any) : bool :=
  bool_decide (is_Some (stringMap !! GetName (pkField r))) && GetAutoID (pkField r).

(** Whether the loop body of [Parse] accepts a pair; it does not depend on
    the row built so far. *)
Definition pairOk (r : rowParser) (kv : string * any) : bool :=
  match name2FieldID r !! kv.1 with
  | Some fieldID => isOk (parseEntity r fieldID kv.2)
  | None =>
      match dynamicField r with
      | Some d => negb (bool_decide (kv.1 = Name d))
      | None => false
      end
  end.

(** What the loop body writes into the row for a pair, if anything. *)
Definition explicitEntry (r : rowParser) (kv : string * any) : option (Z * Value) :=
  match name2FieldID r !! kv.1 with
  | Some fieldID =>
      match parseEntity r fieldID kv.2 with
      | Ok data => Some (fieldID, data)
      | Err _ => None
      end
  | None => None
  end.

(** Whether a pair goes to the side buffer of dynamic values. *)
Definition isExtra (r : rowParser) (kv : string * any) : bool :=
  match name2FieldID r !! kv.1 with
  | Some _ => false
  | None => true
  end.


(** The pairs of a record whose key is no explicit field of the index. *)
Definition extraPairs (r : rowParser) (stringMap : gmap string any) : gmap string any :=
  filter (fun kv => isExtra r kv = true) stringMap.
(** The runtime shapes each declared type takes: the type assertions of the
    branches of [parseEntity]. *)
Definition acceptsShape (dataType : DataType) (t : GoType) : bool :=
  match dataType, t with
  | DataType_Bool, T_bool => true
  | (DataType_Int8 | DataType_Int16 | DataType_Int32 | DataType_Int64
     | DataType_Float | DataType_Double), T_json_Number => true
  | (DataType_BinaryVector | DataType_FloatVector | DataType_Float16Vector
     | DataType_Array), T_slice => true
  | (DataType_String | DataType_VarChar), T_string => true
  | DataType_JSON, (T_string | T_map) => true
  | _, _ => false
  end.

(** The [bitSize] a scalar integer type is parsed at, and the value it
    stores. *)
Definition intWidth (dataType : DataType) : option Z :=
  match dataType with
  | DataType_Int8 => Some 8
  | DataType_Int16 => Some 16
  | DataType_Int32 => Some 32
  | DataType_Int64 => Some 64
  | _ => None
  end.

Definition intValue (dataType : DataType) (n : Z) : Value :=
  match dataType with
  | DataType_Int8 => V_int8 n
  | DataType_Int16 => V_int16 n
  | DataType_Int32 => V_int32 n
  | _ => V_int64 n
  end.

(** The element types [arrayToFieldData] has a branch for. *)
Definition supportedElem (eleType : DataType) : bool :=
  match eleType with
  | DataType_Bool | DataType_Int8 | DataType_Int16 | DataType_Int32
  | DataType_Int64 | DataType_Float | DataType_Double
  | DataType_VarChar | DataType_String => true
  | _ => false
  end.

(** The number of elements of a [ScalarField]. *)
Definition lengthOf (sf : ScalarField) : nat :=
  match sf with
  | ScalarField_BoolData data => length data
  | ScalarField_IntData data => length data
  | ScalarField_LongData data => length data
  | ScalarField_FloatData data => length data
  | ScalarField_DoubleData data => length data
  | ScalarField_StringData data => length data
  end.

(** The [bitSize] the elements of an integer array are parsed at. *)
Definition elemWidth (eleType : DataType) : option Z :=
  match eleType with
  | DataType_Int8 | DataType_Int16 | DataType_Int32 => Some 32
  | DataType_Int64 => Some 64
  | _ => None
  end.

Definition intData (eleType : DataType) (ns : list Z) : ScalarField :=
  match eleType with
  | DataType_Int64 => ScalarField_LongData ns
  | _ => ScalarField_IntData ns
  end.
End Vocabulary.

(* ===================================================================== *)
(** ** Properties: results, and loops that stop at the first error        *)
(* ===================================================================== *)

Lemma bind_Ok {A B : Type} (x : Result A) (k : A -> Result B) (b : B) :
  x ≫= k = Ok b <-> exists a, x = Ok a /\ k a = Ok b.
Proof.
  destruct x as [a|e]; cbn; split.
  - eauto.
  - intros (a' & Ha & Hk). congruence.
  - intros H. discriminate H.
  - intros (a' & Ha & _). discriminate Ha.
Qed.

Lemma isOk_true {A : Type} (x : Result A) : isOk x = true <-> is_Ok x.
Proof.
  destruct x; cbn; split; intros H; try discriminate H.
  - eexists; reflexivity.
  - reflexivity.
  - destruct H as [a Ha]. discriminate Ha.
Qed.

Section Loops.
Context {A B S : Type}.

Lemma mapM_Ok (f : A -> Result B) (l : list A) (ys : list B) :
  mapM f l = Ok ys <-> Forall2 (fun x y => f x = Ok y) l ys.
Proof.
  revert ys. induction l as [|x l IH]; intros ys; cbn.
  - split.
    + intros [= <-]. constructor.
    + intros H. inversion H. reflexivity.
  - rewrite bind_Ok. split.
    + intros (y & Hy & H). apply bind_Ok in H as (ys' & Hys & [= <-]).
      constructor; [assumption|]. apply IH, Hys.
    + intros H. inversion H as [|? y ? ys' Hy Hys]; subst.
      exists y. split; [assumption|]. apply bind_Ok. exists ys'.
      split; [apply IH, Hys | reflexivity].
Qed.

Lemma mapM_is_Ok (f : A -> Result B) (l : list A) :
  is_Ok (mapM f l) <-> Forall (fun x => is_Ok (f x)) l.
Proof.
  induction l as [|x l IH]; cbn.
  - split; [constructor | intros _; eexists; reflexivity].
  - split.
    + intros [ys H]. apply bind_Ok in H as (y & Hy & H).
      apply bind_Ok in H as (ys' & Hys & _).
      constructor; [eexists; eassumption | apply IH; eexists; eassumption].
    + intros H. inversion H as [|? ? [y Hy] Hl]; subst.
      apply IH in Hl as [ys Hys]. exists (y :: ys). rewrite Hy; cbn.
      rewrite Hys; reflexivity.
Qed.

(** The first element that fails decides the error of the whole loop. *)
Lemma mapM_first_Err (f : A -> Result B) (pre post : list A) (x : A) (e : error) :
  Forall (fun a => is_Ok (f a)) pre -> f x = Err e ->
  mapM f (pre ++ x :: post) = Err e.
Proof.
  intros Hpre Hx. induction Hpre as [|a pre [b Hb] _ IH]; cbn.
  - rewrite Hx. reflexivity.
  - rewrite Hb; cbn. rewrite IH. reflexivity.
Qed.

Lemma foldM_app (f : S -> A -> Result S) (l1 l2 : list A) (s : S) :
  foldM f (l1 ++ l2) s = foldM f l1 s ≫= foldM f l2.
Proof.
  revert s. induction l1 as [|x l1 IH]; intros s; cbn; [reflexivity|].
  destruct (f s x) as [s'|e]; cbn; [apply IH | reflexivity].
Qed.

(** An element on which the body fails from every state makes the loop
    fail, wherever it stands. *)
Lemma foldM_elem_Err (f : S -> A -> Result S) (l : list A) (x : A) (s : S) :
  x ∈ l -> (forall s', is_Err (f s' x)) -> is_Err (foldM f l s).
Proof.
  intros Hin Hx. revert s. induction Hin as [x l|x y l _ IH]; intros s; cbn.
  - destruct (Hx s) as [e ->]. exists e. reflexivity.
  - destruct (f s y) as [s'|e]; cbn; [apply IH, Hx | exists e; reflexivity].
Qed.
End Loops.

(* ===================================================================== *)
(** ** Properties of strconv                                              *)
(* ===================================================================== *)

Lemma digits_nonneg (base0 : bool) (base maxVal : Z) (s : string) (n n' : Z) (us us' : bool) :
  0 <= base -> 0 <= n ->
  strconv.digits base0 base maxVal s n us = inr (n', us') -> 0 <= n'.
Proof.
  intros Hb. revert n us. induction s as [|a s IH]; intros n us Hn; cbn.
  - intros [= <- _]. exact Hn.
  - destruct ((strconv.byteZ a =? 95) && base0); [apply IH, Hn|].
    unfold strconv.isDigit, strconv.isLetter.
    destruct ((48 <=? strconv.byteZ a) && (strconv.byteZ a <=? 57)) eqn:Hd.
    + destruct (base <=? strconv.byteZ a - 48); [discriminate|].
      destruct (maxVal <? n * base + (strconv.byteZ a - 48)); [discriminate|].
      apply IH. apply andb_prop in Hd as [H1 _]. apply Z.leb_le in H1. nia.
    + destruct ((97 <=? strconv.lower (strconv.byteZ a))
                && (strconv.lower (strconv.byteZ a) <=? 122)) eqn:Hl; [|discriminate].
      destruct (base <=? strconv.lower (strconv.byteZ a) - 97 + 10); [discriminate|].
      destruct (maxVal <? n * base + (strconv.lower (strconv.byteZ a) - 97 + 10));
        [discriminate|].
      apply IH. apply andb_prop in Hl as [H1 _]. apply Z.leb_le in H1. nia.
Qed.

Lemma splitBase_nonneg (s : string) : 0 <= (strconv.splitBase s).1.
Proof.
  unfold strconv.splitBase.
  repeat match goal with |- context [if ?b then _ else _] => destruct b end;
    cbn; lia.
Qed.

Lemma parseUint_nonneg (s : string) (base bitSize : Z) :
  0 <= (strconv.parseUint s base bitSize).1.
Proof.
  unfold strconv.parseUint.
  destruct (strconv.len s =? 0); [cbn; lia|].
  set (pre := if (2 <=? base) && (base <=? 36) then _ else _).
  assert (Hpre : forall b ds, pre = Some (b, ds) -> 0 <= b).
  { subst pre. intros b ds.
    destruct ((2 <=? base) && (base <=? 36)) eqn:Hb.
    - intros [= <- _]. apply andb_prop in Hb as [H1 _]. apply Z.leb_le in H1. lia.
    - destruct (base =? 0); [|discriminate].
      intros H. injection H as H. pose proof (splitBase_nonneg s) as Hs.
      rewrite H in Hs. exact Hs. }
  destruct pre as [[b ds]|]; [|cbn; lia].
  specialize (Hpre b ds eq_refl).
  destruct ((bitSize <? 0) || (64 <? bitSize)) eqn:Hbits; [cbn; lia|].
  apply orb_false_elim in Hbits as [H1 H2].
  apply Z.ltb_ge in H1. apply Z.ltb_ge in H2.
  set (bits := if bitSize =? 0 then 64 else bitSize).
  assert (0 <= bits) by (subst bits; destruct (bitSize =? 0); lia).
  assert (0 < 2 ^ bits) by (apply Z.pow_pos_nonneg; lia).
  destruct (strconv.digits _ _ _ _ _ _) as [[]|[n us]] eqn:Hd; cbn; try lia.
  apply digits_nonneg in Hd; [|lia|lia].
  destruct (us && _); cbn; lia.
Qed.

(** A literal [ParseInt] accepts at [bitSize] bits fits a signed integer of
    that width. *)
Lemma ParseInt_range (s : string) (base bitSize n : Z) :
  0 < bitSize ->
  strconv.ParseInt s base bitSize = Ok n ->
  - 2 ^ (bitSize - 1) <= n < 2 ^ (bitSize - 1).
Proof.
  intros Hbits. unfold strconv.ParseInt.
  destruct (strconv.len s =? 0); [discriminate|].
  set (s1 := if (strconv.head s =? 43) || (strconv.head s =? 45)
             then strconv.tail s else s).
  pose proof (parseUint_nonneg s1 base bitSize) as Hun.
  destruct (strconv.parseUint s1 base bitSize) as [un err]. cbn in Hun.
  replace (if bitSize =? 0 then 64 else bitSize) with bitSize
    by (destruct (bitSize =? 0) eqn:E; [apply Z.eqb_eq in E; lia | reflexivity]).
  assert (0 < 2 ^ (bitSize - 1)) by (apply Z.pow_pos_nonneg; lia).
  assert (Hgo : (if negb (strconv.head s =? 45) && (2 ^ (bitSize - 1) <=? un)
                 then Err (NumError "ParseInt" s ErrRange)
                 else if (strconv.head s =? 45) && (2 ^ (bitSize - 1) <? un)
                 then Err (NumError "ParseInt" s ErrRange)
                 else Ok (if strconv.head s =? 45 then - un else un)) = Ok n ->
                - 2 ^ (bitSize - 1) <= n < 2 ^ (bitSize - 1)).
  { destruct (strconv.head s =? 45); cbn.
    - destruct (2 ^ (bitSize - 1) <? un) eqn:E; [discriminate|].
      apply Z.ltb_ge in E. intros [= <-]. lia.
    - destruct (2 ^ (bitSize - 1) <=? un) eqn:E; [discriminate|].
      apply Z.leb_gt in E. intros [= <-]. lia. }
  destruct err as [[]|]; try discriminate; exact Hgo.
Qed.

Lemma toInt_id (bits n : Z) :
  0 < bits -> - 2 ^ (bits - 1) <= n < 2 ^ (bits - 1) -> toInt bits n = n.
Proof.
  intros Hbits Hn. unfold toInt.
  assert (2 ^ bits = 2 * 2 ^ (bits - 1)) as ->.
  { rewrite <- Z.pow_succ_r by lia. f_equal. lia. }
  rewrite Z.mod_small; lia.
Qed.

(* ===================================================================== *)
(** ** Properties of the value coercion                                   *)
(* ===================================================================== *)

Section Coercion.
Context `{L : GoLib}.
Implicit Types (r : rowParser) (fieldID : Z) (arr : list any) (obj : any).

Lemma parseByteElem_is_Ok r fieldID (e : any) :
  is_Ok (parseByteElem r fieldID e) <-> isByteElem e = true.
Proof.
  rewrite <- isOk_true. f_equiv.
  destruct e; cbn; try reflexivity.
  destruct (strconv.ParseUint s 0 8); reflexivity.
Qed.

Lemma parseFloat32Elem_is_Ok r fieldID (e : any) :
  is_Ok (parseFloat32Elem r fieldID e) <-> isFloat32Elem e = true.
Proof.
  rewrite <- isOk_true. f_equiv.
  destruct e; cbn; try reflexivity.
  destruct (ParseFloat s 32); reflexivity.
Qed.

(** A list whose scaled length differs from [dim] is refused with the
    dimension error, whatever its elements are. *)
Lemma vector_dim_mismatch r fieldID arr (dataType : DataType) :
  GetDataType (id2Field r !! fieldID) = dataType ->
  typeutil.IsVectorType dataType = true ->
  actualDim dataType arr ≠ dim r ->
  parseEntity r fieldID (AnySlice arr)
  = Err (DimError (dim r) (GetName (id2Field r !! fieldID)) dataType
           (actualDim dataType arr)).
Proof.
  intros Hdt Hvec Hne. unfold parseEntity, wrapDimError. rewrite Hdt.
  destruct dataType; try discriminate Hvec; cbn in *;
    (destruct (decide _) as [_|Heq]; [reflexivity | contradiction]).
Qed.

(** A list whose scaled length equals [dim] is accepted once every element
    is a number the encoding can hold, and every element is kept. *)
Lemma vector_dim_match r fieldID arr (dataType : DataType) :
  GetDataType (id2Field r !! fieldID) = dataType ->
  typeutil.IsVectorType dataType = true ->
  actualDim dataType arr = dim r ->
  forallb (wellTypedElem dataType) arr = true ->
  is_Ok (parseEntity r fieldID (AnySlice arr)).
Proof.
  intros Hdt Hvec Heq Hall. unfold parseEntity. rewrite Hdt.
  assert (Hall' : forall e, e ∈ arr -> wellTypedElem dataType e = true).
  { intros e He. eapply forallb_forall in Hall; [exact Hall|].
    apply list_elem_of_In, He. }
  clear Hall. rename Hall' into Hall.
  destruct dataType; try discriminate Hvec; cbn in *;
    (destruct (decide _) as [Hne|_]; [contradiction|]).
  - assert (is_Ok (mapM (parseByteElem r fieldID) arr)) as [vec ->].
    { apply mapM_is_Ok, Forall_forall. intros e He.
      apply parseByteElem_is_Ok, Hall, He. }
    eexists; reflexivity.
  - assert (is_Ok (mapM (parseFloat32Elem r fieldID) arr)) as [vec ->].
    { apply mapM_is_Ok, Forall_forall. intros e He.
      apply parseFloat32Elem_is_Ok, Hall, He. }
    eexists; reflexivity.
  - assert (is_Ok (mapM (parseByteElem r fieldID) arr)) as [vec ->].
    { apply mapM_is_Ok, Forall_forall. intros e He.
      apply parseByteElem_is_Ok, Hall, He. }
    eexists; reflexivity.
Qed.

(** For binary and float vectors the comparison is exact: the list is
    accepted only at the one length that gives [dim]. *)
Lemma binary_vector_exact r fieldID arr :
  GetDataType (id2Field r !! fieldID) = DataType_BinaryVector ->
  is_Ok (parseEntity r fieldID (AnySlice arr)) ->
  Z.of_nat (length arr) * 8 = dim r.
Proof.
  intros Hdt Hok.
  destruct (decide (actualDim DataType_BinaryVector arr = dim r)) as [H|H];
    [exact H|].
  rewrite (vector_dim_mismatch _ _ _ _ Hdt eq_refl H) in Hok.
  destruct Hok as [? [=]].
Qed.

Lemma float_vector_exact r fieldID arr :
  GetDataType (id2Field r !! fieldID) = DataType_FloatVector ->
  is_Ok (parseEntity r fieldID (AnySlice arr)) ->
  Z.of_nat (length arr) = dim r.
Proof.
  intros Hdt Hok.
  destruct (decide (actualDim DataType_FloatVector arr = dim r)) as [H|H];
    [exact H|].
  rewrite (vector_dim_mismatch _ _ _ _ Hdt eq_refl H) in Hok.
  destruct Hok as [? [=]].
Qed.

(** For float16 vectors the halved length is compared, so a list of
    [2 * dim + 1] bytes passes as well as one of [2 * dim]. *)
Lemma float16_vector_lengths r fieldID arr :
  GetDataType (id2Field r !! fieldID) = DataType_Float16Vector ->
  forallb isByteElem arr = true ->
  is_Ok (parseEntity r fieldID (AnySlice arr))
  <-> Z.of_nat (length arr) = 2 * dim r \/ Z.of_nat (length arr) = 2 * dim r + 1.
Proof.
  intros Hdt Hall.
  assert (Hq : actualDim DataType_Float16Vector arr = dim r
               <-> Z.of_nat (length arr) = 2 * dim r
                   \/ Z.of_nat (length arr) = 2 * dim r + 1).
  { unfold actualDim. rewrite Z.quot_div_nonneg by lia.
    pose proof (Z.div_mod (Z.of_nat (length arr)) 2 ltac:(lia)) as Hdm.
    pose proof (Z.mod_pos_bound (Z.of_nat (length arr)) 2 ltac:(lia)) as Hb.
    lia. }
  rewrite <- Hq. split.
  - intros Hok.
    destruct (decide (actualDim DataType_Float16Vector arr = dim r)) as [H|H];
      [exact H|].
    rewrite (vector_dim_mismatch _ _ _ _ Hdt eq_refl H) in Hok.
    destruct Hok as [? [=]].
  - intros Heq. eapply vector_dim_match; eauto.
Qed.

End Coercion.

(** C1 (the code departs from the claim): with an expected dim of 2, a
    float16 vector given as a list of 5 bytes, which is not 2 * 2, is
    accepted and stored as 5 bytes, because the check compares the halved
    length.  The lists of 3 and of 6 bytes are refused with the dimension
    error. *)
Theorem float16_odd_length_accepted :
  let r := Sample.parserOf Sample.f16Schema in
  let byte (s : string) := AnyNumber s in
  dim r = 2
  /\ GetDataType (id2Field r !! 101) = DataType_Float16Vector
  /\ @parseEntity Sample.lib r 101
       (AnySlice [byte "1"; byte "2"; byte "3"; byte "4"; byte "5"])
     = Ok (V_bytes [1; 2; 3; 4; 5])
  /\ @parseEntity Sample.lib r 101 (AnySlice [byte "1"; byte "2"; byte "3"])
     = Err (DimError 2 "vector" DataType_Float16Vector 1)
  /\ @parseEntity Sample.lib r 101
       (AnySlice [byte "1"; byte "2"; byte "3"; byte "4"; byte "5"; byte "6"])
     = Err (DimError 2 "vector" DataType_Float16Vector 3).
Proof. cbn zeta. repeat apply conj; reflexivity. Qed.

(* ===================================================================== *)
(** ** Properties of the array element coercion                           *)
(* ===================================================================== *)

Section Arrays.
Context `{L : GoLib}.
Implicit Types (arr pre post : list any) (eleType : DataType).

Lemma int32Elem_isOk (bad : error) (e : any) :
  isOk (int32Elem bad e) = isInt32Elem e.
Proof.
  destruct e; cbn; try reflexivity.
  destruct (strconv.ParseInt s 0 32); reflexivity.
Qed.


Lemma int32Elem_range (bad : error) (e : any) (n : Z) :
  int32Elem bad e = Ok n -> - 2 ^ 31 <= n < 2 ^ 31.
Proof.
  destruct e; cbn; try discriminate.
  destruct (strconv.ParseInt s 0 32) as [num|] eqn:Hp; cbn; [|discriminate].
  intros [= <-]. apply ParseInt_range in Hp; [|lia].
  rewrite toInt_id by (lia || exact Hp). exact Hp.
Qed.

Lemma intArray_unfold arr eleType :
  eleType = DataType_Int8 \/ eleType = DataType_Int16 \/ eleType = DataType_Int32 ->
  arrayToFieldData arr eleType
  = (values ← mapM (int32Elem (ArrayValueTypeError eleType (AnySlice arr))) arr;
     Ok (ScalarField_IntData values)).
Proof. intros [->|[->| ->]]; reflexivity. Qed.


(** An array of integers is accepted exactly when every element is a
    number that fits 32 bits. *)
Lemma intArray_is_Ok arr eleType :
  eleType = DataType_Int8 \/ eleType = DataType_Int16 \/ eleType = DataType_Int32 ->
  is_Ok (arrayToFieldData arr eleType) <-> forallb isInt32Elem arr = true.
Proof.
  intros H. rewrite (intArray_unfold _ _ H).
  set (bad := ArrayValueTypeError eleType (AnySlice arr)).
  transitivity (is_Ok (mapM (int32Elem bad) arr)).
  - split.
    + intros [sf Hsf]. apply bind_Ok in Hsf as (vs & Hvs & _). exists vs. exact Hvs.
    + intros [vs Hvs]. rewrite Hvs. eexists; reflexivity.
  - rewrite mapM_is_Ok, forallb_forall, Forall_forall. split.
    + intros Hall e He. rewrite <- int32Elem_isOk with (bad := bad).
      apply isOk_true, Hall, list_elem_of_In, He.
    + intros Hall e He. apply isOk_true. rewrite int32Elem_isOk.
      apply Hall, list_elem_of_In, He.
Qed.

(** The first element that does not conform ends the coercion: with the
    type error when it is not a number, with the error of [ParseInt] when
    it is a number that does not parse. *)
Lemma intArray_first_bad pre post (x : any) eleType :
  eleType = DataType_Int8 \/ eleType = DataType_Int16 \/ eleType = DataType_Int32 ->
  forallb isInt32Elem pre = true ->
  isInt32Elem x = false ->
  exists e, arrayToFieldData (pre ++ x :: post) eleType = Err e
    /\ match x with
       | AnyNumber s => strconv.ParseInt s 0 32 = Err e
       | _ => e = ArrayValueTypeError eleType (AnySlice (pre ++ x :: post))
       end.
Proof.
  intros H Hpre Hx. rewrite (intArray_unfold _ _ H).
  set (bad := ArrayValueTypeError eleType (AnySlice (pre ++ x :: post))).
  assert (Hpre' : Forall (fun a => is_Ok (int32Elem bad a)) pre).
  { apply Forall_forall. intros a Ha. apply isOk_true. rewrite int32Elem_isOk.
    eapply forallb_forall in Hpre; [exact Hpre|]. apply list_elem_of_In, Ha. }
  assert (Hx' : exists e, int32Elem bad x = Err e
                /\ match x with
                   | AnyNumber s => strconv.ParseInt s 0 32 = Err e
                   | _ => e = bad
                   end).
  { destruct x; cbn in *; try (eexists; split; reflexivity).
    destruct (strconv.ParseInt s 0 32) as [n|e]; [discriminate Hx|].
    exists e. split; reflexivity. }
  destruct Hx' as (e & He & Hshape). exists e. split; [|exact Hshape].
  rewrite (mapM_first_Err _ _ _ _ _ Hpre' He). reflexivity.
Qed.

End Arrays.

(** C4, as stated, does not hold: the error for [[1, 2, "3"]] does not show
    the runtime shape of the offending element (a string); what it shows
    after "got type" is the shape of the value it was given, the whole
    array. *)
Lemma int32_array_error_shows_array_shape :
  ~ (exists e,
       @arrayToFieldData Sample.lib
         [AnyNumber "1"; AnyNumber "2"; AnyString "3"] DataType_Int32 = Err e
       /\ gotType e = Some (typeOf (AnyString "3"))).
Proof.
  intros (e & He & Ht).
  assert (Hrun : @arrayToFieldData Sample.lib
                   [AnyNumber "1"; AnyNumber "2"; AnyString "3"] DataType_Int32
                 = Err (ArrayValueTypeError DataType_Int32
                          (AnySlice [AnyNumber "1"; AnyNumber "2"; AnyString "3"])))
    by reflexivity.
  rewrite Hrun in He. injection He as <-. discriminate Ht.
Qed.

(** C4 (amended): for element type int32, [[1, 2, "3"]] fails with a type
    mismatch whose message carries the declared element type and the whole
    array, shown both as value and as runtime shape, and no index;
    [[1, 2, 3]] gives the 3-element sequence of 32-bit integers; and in
    general the first element that does not conform aborts the whole array,
    with that type mismatch when it is not a number and with the error of
    the integer parser when it is a number that does not fit. *)
Theorem int32_array_coercion `{L : GoLib} :
  let bad := [AnyNumber "1"; AnyNumber "2"; AnyString "3"] in
  (exists e, arrayToFieldData bad DataType_Int32 = Err e
     /\ e = ArrayValueTypeError DataType_Int32 (AnySlice bad)
     /\ kindOf e = TypeMismatch
     /\ gotValue e = Some (AnySlice bad)
     /\ gotType e = Some T_slice)
  /\ arrayToFieldData [AnyNumber "1"; AnyNumber "2"; AnyNumber "3"] DataType_Int32
     = Ok (ScalarField_IntData [1; 2; 3])
  /\ (forall arr, is_Ok (arrayToFieldData arr DataType_Int32)
                  <-> forallb isInt32Elem arr = true)
  /\ (forall pre x post,
        forallb isInt32Elem pre = true -> isInt32Elem x = false ->
        exists e, arrayToFieldData (pre ++ x :: post) DataType_Int32 = Err e
          /\ match x with
             | AnyNumber s => strconv.ParseInt s 0 32 = Err e
             | _ => e = ArrayValueTypeError DataType_Int32 (AnySlice (pre ++ x :: post))
                    /\ kindOf e = TypeMismatch
             end).
Proof.
  cbn zeta. split; [|split; [|split]].
  - eexists. split; [reflexivity|]. repeat split; reflexivity.
  - reflexivity.
  - intros arr. apply intArray_is_Ok. auto.
  - intros pre x post Hpre Hx.
    destruct (intArray_first_bad pre post x DataType_Int32) as (e & He & Hs); auto.
    exists e. split; [exact He|].
    destruct x; try exact Hs; subst e; split; reflexivity.
Qed.

Lemma int32_array_coercion_witness :
  forallb (@isInt32Elem) [AnyNumber "1"; AnyNumber "2"] = true
  /\ @isInt32Elem (AnyString "3") = false
  /\ exists e,
       @arrayToFieldData Sample.lib
         ([AnyNumber "1"; AnyNumber "2"] ++ AnyString "3" :: [AnyNumber "4"])
         DataType_Int32 = Err e
       /\ e = ArrayValueTypeError DataType_Int32
                (AnySlice [AnyNumber "1"; AnyNumber "2"; AnyString "3"; AnyNumber "4"])
       /\ kindOf e = TypeMismatch.
Proof.
  split; [reflexivity|]. split; [reflexivity|].
  exact (proj2 (proj2 (proj2 (@int32_array_coercion Sample.lib)))
           [AnyNumber "1"; AnyNumber "2"] (AnyString "3") [AnyNumber "4"]
           eq_refl eq_refl).
Defined.

(* ===================================================================== *)
(** ** Integer widths: scalar fields against array elements               *)
(* ===================================================================== *)

Section Widths.
Context `{L : GoLib}.
Implicit Types (r : rowParser) (fieldID : Z) (obj : any).



End Widths.



(* ===================================================================== *)
(** ** JSON fields                                                        *)
(* ===================================================================== *)

Section JSONField.
Context `{L : GoLib}.
Implicit Types (r : rowParser) (fieldID : Z) (obj : any).

(** Only a JSON field takes a key/value map, and what it stores is what
    [json.Marshal] returns for it. *)
Lemma parseEntity_map_Ok r fieldID (mp : gmap string any) (v : Value) :
  parseEntity r fieldID (AnyMap mp) = Ok v ->
  GetDataType (id2Field r !! fieldID) = DataType_JSON
  /\ exists bs, json_Marshal (AnyMap mp) = Ok bs /\ v = V_bytes bs.
Proof.
  unfold parseEntity.
  destruct (GetDataType (id2Field r !! fieldID)); cbn; try discriminate.
  rewrite bind_Ok. intros (bs & Hbs & [= <-]). eauto.
Qed.

End JSONField.



(* ===================================================================== *)
(** ** Properties of the schema index                                     *)
(* ===================================================================== *)

Section SliceMaps.
Context {T K V : Type} `{Countable K}.
Implicit Types (l : list T) (transform : T -> K * V).

Lemma SliceToMap_snoc l transform (t : T) :
  SliceToMap (l ++ [t]) transform
  = <[(transform t).1 := (transform t).2]> (SliceToMap l transform).
Proof. unfold SliceToMap. rewrite foldl_app. reflexivity. Qed.

(** An entry of the map comes from an element of the slice. *)
Lemma SliceToMap_lookup_Some l transform (k : K) (v : V) :
  SliceToMap l transform !! k = Some v ->
  exists t, t ∈ l /\ transform t = (k, v).
Proof.
  induction l as [|t l IH] using rev_ind.
  - unfold SliceToMap; cbn. rewrite lookup_empty. discriminate.
  - rewrite SliceToMap_snoc.
    destruct (decide ((transform t).1 = k)) as [<-|Hne].
    + rewrite lookup_insert_eq. intros [= <-]. exists t. split.
      * apply elem_of_app. right. apply list_elem_of_singleton. reflexivity.
      * destruct (transform t); reflexivity.
    + rewrite lookup_insert_ne by exact Hne. intros Hl.
      destruct (IH Hl) as (t' & Hin & Ht'). exists t'. split; [|exact Ht'].
      apply elem_of_app. left. exact Hin.
Qed.

(** The keys of the map are the keys of the elements. *)
Lemma SliceToMap_is_Some l transform (k : K) :
  is_Some (SliceToMap l transform !! k) <-> exists t, t ∈ l /\ (transform t).1 = k.
Proof.
  split.
  - intros [v Hv]. apply SliceToMap_lookup_Some in Hv as (t & Hin & Ht).
    exists t. split; [exact Hin|]. rewrite Ht. reflexivity.
  - intros (t & Hin & <-). induction l as [|t' l IH] using rev_ind.
    + apply elem_of_nil in Hin as [].
    + rewrite SliceToMap_snoc.
      destruct (decide ((transform t').1 = (transform t).1)) as [->|Hne].
      * rewrite lookup_insert_eq. eexists; reflexivity.
      * rewrite lookup_insert_ne by exact Hne. apply IH.
        apply elem_of_app in Hin as [Hin|Hin]; [exact Hin|].
        apply list_elem_of_singleton in Hin. subst t'. contradiction.
Qed.

(** With distinct keys, each element keeps its own entry. *)
Lemma SliceToMap_lookup_NoDup l transform (t : T) :
  NoDup ((fun x => (transform x).1) <$> l) -> t ∈ l ->
  SliceToMap l transform !! (transform t).1 = Some (transform t).2.
Proof.
  induction l as [|t' l IH] using rev_ind; intros Hnd Hin.
  - apply elem_of_nil in Hin as [].
  - rewrite SliceToMap_snoc. rewrite fmap_app in Hnd.
    apply NoDup_app in Hnd as (Hnd & Hdisj & _).
    apply elem_of_app in Hin as [Hin|Hin].
    + rewrite lookup_insert_ne; [apply IH; assumption|].
      intros Heq. apply (Hdisj (transform t).1).
      * apply list_elem_of_fmap. exists t. split; [reflexivity | exact Hin].
      * cbn. rewrite Heq. apply list_elem_of_singleton. reflexivity.
    + apply list_elem_of_singleton in Hin. subst t'. apply lookup_insert_eq.
Qed.
(** The map has at most one entry per element, and exactly one only when
    the keys of the elements are distinct. *)
Lemma SliceToMap_size_le l transform :
  (size (SliceToMap l transform) <= length l)%nat.
Proof.
  induction l as [|t l IH] using rev_ind.
  - unfold SliceToMap; cbn. rewrite map_size_empty. lia.
  - rewrite SliceToMap_snoc, map_size_insert, length_app. cbn.
    destruct (SliceToMap l transform !! (transform t).1); cbn; lia.
Qed.

Lemma SliceToMap_size_NoDup l transform :
  size (SliceToMap l transform) = length l ->
  NoDup ((fun x => (transform x).1) <$> l).
Proof.
  induction l as [|t l IH] using rev_ind; intros Hsize.
  - constructor.
  - rewrite SliceToMap_snoc, map_size_insert, length_app in Hsize. cbn in Hsize.
    pose proof (SliceToMap_size_le l transform) as Hle.
    destruct (SliceToMap l transform !! (transform t).1) as [v|] eqn:Hk;
      cbn in Hsize; [lia|].
    rewrite fmap_app. apply NoDup_app. repeat split.
    + apply IH. lia.
    + intros k Hin Hin'. cbn in Hin'. apply list_elem_of_singleton in Hin'. subst k.
      apply list_elem_of_fmap in Hin as (t' & Heq & Hin).
      assert (Hs : is_Some (SliceToMap l transform !! (transform t).1)).
      { apply SliceToMap_is_Some. exists t'. split; [exact Hin | symmetry; exact Heq]. }
      rewrite Hk in Hs. destruct Hs as [? [=]].
    + cbn. apply NoDup_singleton.
Qed.
End SliceMaps.

Lemma KeyBy_SliceToMap {K V : Type} `{Countable K} (l : list V) (iteratee : V -> K) :
  KeyBy l iteratee = SliceToMap l (fun v => (iteratee v, v)).
Proof. reflexivity. Qed.

Section Index.
Implicit Types (schema : CollectionSchema) (r : rowParser) (pk : FieldSchema).

Lemma NewRowParser_Ok schema r :
  NewRowParser schema = Ok r ->
  exists vecField d pk,
    typeutil.GetVectorFieldSchema schema = Ok vecField
    /\ typeutil.GetDim vecField = Ok d
    /\ typeutil.GetPrimaryFieldSchema schema = Ok pk
    /\ r = {| dim := d;
              id2Field := KeyBy (Fields schema) FieldID;
              name2FieldID := explicitNames (Fields schema) pk
                                (typeutil.GetDynamicField schema);
              pkField := Some pk;
              dynamicField := typeutil.GetDynamicField schema |}.
Proof.
  unfold NewRowParser. rewrite bind_Ok. intros (vecField & Hv & H).
  apply bind_Ok in H as (d & Hd & H). apply bind_Ok in H as (pk & Hpk & [= <-]).
  exists vecField, d, pk. auto.
Qed.

Lemma GetPrimaryFieldSchema_elem schema pk :
  typeutil.GetPrimaryFieldSchema schema = Ok pk -> pk ∈ Fields schema.
Proof.
  unfold typeutil.GetPrimaryFieldSchema.
  destruct (find IsPrimaryKey (Fields schema)) as [f|] eqn:Hf; [|discriminate].
  intros [= <-]. apply find_some in Hf as [Hin _]. apply list_elem_of_In, Hin.
Qed.

(** The domain of the explicit names. *)
Lemma explicitNames_is_Some (fields : list FieldSchema) pk
    (dynamicField : option FieldSchema) (n : string) :
  is_Some (explicitNames fields pk dynamicField !! n)
  <-> (exists f, f ∈ fields /\ Name f = n)
      /\ ~ (AutoID pk = true /\ n = Name pk)
      /\ (forall d, dynamicField = Some d -> n <> Name d).
Proof.
  unfold explicitNames.
  set (m := SliceToMap fields (fun field => (Name field, FieldID field))).
  assert (Hm : is_Some (m !! n) <-> exists f, f ∈ fields /\ Name f = n)
    by apply SliceToMap_is_Some.
  set (m' := if AutoID pk then delete (Name pk) m else m).
  assert (Hm' : is_Some (m' !! n)
                <-> is_Some (m !! n) /\ ~ (AutoID pk = true /\ n = Name pk)).
  { subst m'. destruct (AutoID pk).
    - destruct (decide (n = Name pk)) as [->|Hne].
      + rewrite lookup_delete_eq. split.
        * intros [? [=]].
        * intros [_ Hc]. exfalso. apply Hc. auto.
      + rewrite lookup_delete_ne by congruence. split.
        * intros Hs. split; [exact Hs|]. intros [_ Hc]. contradiction.
        * intros [Hs _]. exact Hs.
    - split.
      + intros Hs. split; [exact Hs|]. intros [Hc _]. discriminate.
      + intros [Hs _]. exact Hs. }
  rewrite <- Hm. destruct dynamicField as [d|].
  - destruct (decide (n = Name d)) as [->|Hne].
    + rewrite lookup_delete_eq. split.
      * intros [? [=]].
      * intros (_ & _ & Hc). exfalso. apply (Hc d); reflexivity.
    + rewrite lookup_delete_ne by congruence. rewrite Hm'. split.
      * intros [Hs Hpk]. repeat split; try assumption. intros d' [= <-]. exact Hne.
      * intros (Hs & Hpk & _). auto.
  - rewrite Hm'. split.
    + intros [Hs Hpk]. repeat split; try assumption. intros d' [=].
    + intros (Hs & Hpk & _). auto.
Qed.

(** What is left in the explicit names was in the map of all names. *)
Lemma explicitNames_lookup_Some (fields : list FieldSchema) pk
    (dynamicField : option FieldSchema) (n : string) (id : Z) :
  explicitNames fields pk dynamicField !! n = Some id ->
  SliceToMap fields (fun field => (Name field, FieldID field)) !! n = Some id.
Proof.
  unfold explicitNames.
  set (m := SliceToMap fields (fun field => (Name field, FieldID field))).
  intros Hl.
  assert (Hl' : (if AutoID pk then delete (Name pk) m else m) !! n = Some id).
  { destruct dynamicField as [d|]; [|exact Hl].
    apply lookup_delete_Some in Hl as [_ Hl]. exact Hl. }
  destruct (AutoID pk); [|exact Hl'].
  apply lookup_delete_Some in Hl' as [_ Hl']. exact Hl'.
Qed.

Lemma explicitNames_field (fields : list FieldSchema) pk
    (dynamicField : option FieldSchema) (n : string) (id : Z) :
  explicitNames fields pk dynamicField !! n = Some id ->
  exists f, f ∈ fields /\ Name f = n /\ FieldID f = id.
Proof.
  intros Hl%explicitNames_lookup_Some.
  apply SliceToMap_lookup_Some in Hl as (f & Hin & [= Hn Hid]). eauto.
Qed.

(** With distinct field IDs, distinct names have distinct IDs. *)
Lemma explicitNames_inj (fields : list FieldSchema) pk
    (dynamicField : option FieldSchema) (n1 n2 : string) (id : Z) :
  NoDup (FieldID <$> fields) ->
  explicitNames fields pk dynamicField !! n1 = Some id ->
  explicitNames fields pk dynamicField !! n2 = Some id ->
  n1 = n2.
Proof.
  intros Hnd H1 H2.
  apply explicitNames_field in H1 as (f1 & Hin1 & <- & Hid1).
  apply explicitNames_field in H2 as (f2 & Hin2 & <- & Hid2).
  f_equal.
  apply list_elem_of_lookup in Hin1 as [i1 Hi1].
  apply list_elem_of_lookup in Hin2 as [i2 Hi2].
  assert (i1 = i2).
  { apply (NoDup_lookup _ i1 i2 id Hnd); rewrite list_lookup_fmap.
    - rewrite Hi1. cbn. congruence.
    - rewrite Hi2. cbn. congruence. }
  congruence.
Qed.
End Index.

(** C5: once [NewRowParser] has succeeded, the names of [name2FieldID] are
    the names of the declared fields, less the primary key's name exactly
    when the primary key is auto-generated, less the dynamic field's name
    when there is a dynamic field; every retained name maps to the ID of a
    declared field of that name, which is the field [id2Field] has under
    that ID when the IDs are distinct; with distinct names every retained
    field has its own entry; and a primary key that is not auto-generated
    keeps its entry (unless it is the dynamic field's name that it bears). *)
Theorem explicit_field_names (schema : CollectionSchema) (r : rowParser) :
  NewRowParser schema = Ok r ->
  is_Some (pkField r)
  /\ (forall n,
        is_Some (name2FieldID r !! n)
        <-> (exists f, f ∈ Fields schema /\ Name f = n)
            /\ ~ (GetAutoID (pkField r) = true /\ n = GetName (pkField r))
            /\ (forall d, dynamicField r = Some d -> n <> Name d))
  /\ (forall n id,
        name2FieldID r !! n = Some id ->
        exists f, f ∈ Fields schema /\ Name f = n /\ FieldID f = id)
  /\ (NoDup (FieldID <$> Fields schema) ->
      forall n id,
        name2FieldID r !! n = Some id ->
        exists f, id2Field r !! id = Some f /\ Name f = n /\ FieldID f = id)
  /\ (NoDup (Name <$> Fields schema) ->
      forall f,
        f ∈ Fields schema -> is_Some (name2FieldID r !! Name f) ->
        name2FieldID r !! Name f = Some (FieldID f))
  /\ (GetAutoID (pkField r) = false ->
      (forall d, dynamicField r = Some d -> Name d <> GetName (pkField r)) ->
      is_Some (name2FieldID r !! GetName (pkField r))).
Proof.
  intros Hnew.
  destruct (NewRowParser_Ok _ _ Hnew) as (vecField & d & pk & _ & _ & Hpk & ->).
  cbn [pkField name2FieldID id2Field dynamicField GetAutoID GetName].
  repeat apply conj.
  - eexists; reflexivity.
  - intros n. apply explicitNames_is_Some.
  - intros n id. apply explicitNames_field.
  - intros Hnd n id Hl.
    apply explicitNames_field in Hl as (f & Hin & Hn & Hid).
    exists f. split; [|auto]. rewrite KeyBy_SliceToMap. subst id.
    apply (SliceToMap_lookup_NoDup (Fields schema) (fun v => (FieldID v, v)) f);
      assumption.
  - intros Hnd f Hin [id Hl]. rewrite Hl. f_equal.
    apply explicitNames_lookup_Some in Hl.
    pose proof (SliceToMap_lookup_NoDup (Fields schema)
                  (fun field => (Name field, FieldID field)) f Hnd Hin) as Hf.
    cbn in Hf. congruence.
  - intros Hauto Hdyn. apply explicitNames_is_Some. repeat apply conj.
    + exists pk. split; [|reflexivity]. apply GetPrimaryFieldSchema_elem, Hpk.
    + intros [Hc _]. congruence.
    + intros d' Hd' Heq. apply (Hdyn d' Hd'). symmetry. exact Heq.
Qed.

Lemma explicit_field_names_witness :
  let r := Sample.parserOf Sample.dynSchema in
  NewRowParser Sample.dynSchema = Ok r
  /\ GetAutoID (pkField r) = false
  /\ is_Some (name2FieldID r !! "id")
  /\ ~ is_Some (name2FieldID r !! "$meta").
Proof.
  cbn zeta.
  assert (Hnew : NewRowParser Sample.dynSchema = Ok (Sample.parserOf Sample.dynSchema))
    by reflexivity.
  destruct (explicit_field_names _ _ Hnew) as (_ & Hdom & _ & _ & _ & Hpk).
  split; [exact Hnew|]. split; [reflexivity|]. split.
  - apply Hpk; [reflexivity|]. intros d [= <-]. discriminate.
  - intros Hs. apply Hdom in Hs as (_ & _ & Hd).
    apply (Hd Sample.metaField); reflexivity.
Defined.

(* ===================================================================== *)
(** ** Properties of the loops of Parse                                   *)
(* ===================================================================== *)

Section MapLoops.
Context {K V : Type} `{Countable K}.
Implicit Types (l : list (K * V)) (m : gmap K V).

(** Writing the pairs of a list into a map one after the other. *)
Lemma foldl_insert_list_to_map l m :
  foldl (fun acc kv => <[kv.1 := kv.2]> acc) m l = list_to_map (reverse l) ∪ m.
Proof.
  revert m. induction l as [|[k v] l IH]; intros m.
  - cbn. rewrite (left_id_L ∅ (∪)). reflexivity.
  - rewrite reverse_cons, list_to_map_app.
    change (foldl (fun acc kv => <[kv.1 := kv.2]> acc) m ((k, v) :: l))
      with (foldl (fun acc kv => <[kv.1 := kv.2]> acc) (<[k := v]> m) l).
    rewrite IH. cbn [list_to_map foldr uncurry fst snd]. 
    rewrite insert_empty, <- (assoc_L (∪)), <- insert_union_singleton_l.
    reflexivity.
Qed.

Lemma foldl_insert_lookup l (k : K) (v : V) :
  NoDup l.*1 ->
  foldl (fun acc kv => <[kv.1 := kv.2]> acc) (∅ : gmap K V) l !! k = Some v
  <-> (k, v) ∈ l.
Proof.
  intros Hnd. rewrite foldl_insert_list_to_map, (right_id_L ∅ (∪)).
  rewrite <- elem_of_list_to_map.
  - rewrite elem_of_reverse. reflexivity.
  - rewrite fmap_reverse, reverse_Permutation. exact Hnd.
Qed.
Lemma foldl_insert_is_Some l m (k : K) :
  is_Some (foldl (fun acc kv => <[kv.1 := kv.2]> acc) m l !! k)
  <-> k ∈ l.*1 \/ is_Some (m !! k).
Proof.
  rewrite foldl_insert_list_to_map, lookup_union_is_Some.
  assert (Hl : is_Some ((list_to_map (reverse l) : gmap K V) !! k) <-> k ∈ l.*1).
  { rewrite <- not_eq_None_Some, <- not_elem_of_list_to_map.
    rewrite fmap_reverse, elem_of_reverse.
    destruct (decide (k ∈ l.*1)); tauto. }
  rewrite Hl. reflexivity.
Qed.
End MapLoops.

Section ParseLoops.
Context `{L : GoLib}.
Variable r : rowParser.
Implicit Types (kvs : list (string * any)) (row : Row) (dyn : gmap string any).

Lemma parsePair_Ok row dyn (kv : string * any) (st : Row * gmap string any) :
  parsePair r (row, dyn) kv = Ok st ->
  pairOk r kv = true
  /\ st = (match explicitEntry r kv with
           | Some (fieldID, data) => <[fieldID := data]> row
           | None => row
           end,
           if isExtra r kv then <[kv.1 := kv.2]> dyn else dyn).
Proof.
  destruct kv as [k v]. unfold parsePair, pairOk, explicitEntry, isExtra. cbn.
  destruct (name2FieldID r !! k) as [fieldID|].
  - destruct (parseEntity r fieldID v) as [data|e]; cbn; [|discriminate].
    intros [= <-]. split; reflexivity.
  - destruct (dynamicField r) as [d|]; [|discriminate].
    destruct (decide (k = Name d)) as [->|Hne]; [discriminate|].
    intros [= <-]. split; [|reflexivity].
    rewrite bool_decide_eq_false_2 by exact Hne. reflexivity.
Qed.

Lemma parsePair_isOk (st : Row * gmap string any) (kv : string * any) :
  isOk (parsePair r st kv) = pairOk r kv.
Proof.
  destruct st as [row dyn], kv as [k v]. unfold parsePair, pairOk. cbn.
  destruct (name2FieldID r !! k) as [fieldID|].
  - destruct (parseEntity r fieldID v); reflexivity.
  - destruct (dynamicField r) as [d|]; [|reflexivity].
    destruct (decide (k = Name d)) as [Heq|Hne].
    + rewrite bool_decide_eq_true_2 by exact Heq. reflexivity.
    + rewrite bool_decide_eq_false_2 by exact Hne. reflexivity.
Qed.

(** The loop over the record succeeds exactly when each pair is accepted,
    in whatever order the pairs come. *)
Lemma parsePairs_is_Ok kvs (st : Row * gmap string any) :
  is_Ok (foldM (parsePair r) kvs st) <-> forallb (pairOk r) kvs = true.
Proof.
  revert st. induction kvs as [|kv kvs IH]; intros st.
  - cbn. split; [reflexivity | intros _; eexists; reflexivity].
  - cbn [foldM forallb]. rewrite andb_true_iff, <- (parsePair_isOk st kv).
    destruct (parsePair r st kv) as [st'|e]; cbn.
    + rewrite IH. intuition.
    + split; [intros [? [=]] | intros [[=] _]].
Qed.

(** On success the row holds what the explicit pairs wrote, and the side
    buffer holds the other pairs. *)
Lemma parsePairs_Ok kvs row dyn row' dyn' :
  foldM (parsePair r) kvs (row, dyn) = Ok (row', dyn') ->
  row' = foldl (fun acc e => <[e.1 := e.2]> acc) row (omap (explicitEntry r) kvs)
  /\ dyn' = foldl (fun acc kv => <[kv.1 := kv.2]> acc) dyn
              (filter (fun kv => isExtra r kv = true) kvs).
Proof.
  revert row dyn. induction kvs as [|kv kvs IH]; intros row dyn.
  - cbn. intros [= <- <-]. split; reflexivity.
  - cbn [foldM]. rewrite bind_Ok. intros ([row1 dyn1] & Hst & Hrest).
    apply parsePair_Ok in Hst as [_ [= -> ->]].
    apply IH in Hrest as [-> ->]. split.
    + cbn. destruct (explicitEntry r kv) as [[fieldID data]|]; reflexivity.
    + rewrite filter_cons. destruct (isExtra r kv); cbn.
      * rewrite decide_True by reflexivity. reflexivity.
      * rewrite decide_False by discriminate. reflexivity.
Qed.

Lemma elem_of_explicit kvs (fieldID : Z) (data : Value) :
  (fieldID, data) ∈ omap (explicitEntry r) kvs
  <-> exists k v, (k, v) ∈ kvs /\ name2FieldID r !! k = Some fieldID
                  /\ parseEntity r fieldID v = Ok data.
Proof.
  rewrite list_elem_of_omap. unfold explicitEntry. split.
  - intros ([k v] & Hin & He). cbn in He.
    destruct (name2FieldID r !! k) as [id|] eqn:Hk; [|discriminate].
    destruct (parseEntity r id v) as [d|] eqn:Hp; [|discriminate].
    injection He as <- <-. eauto.
  - intros (k & v & Hin & Hk & Hp). exists (k, v). split; [exact Hin|].
    cbn. rewrite Hk, Hp. reflexivity.
Qed.

(** Distinct keys write distinct slots when no two names share an ID. *)
Lemma NoDup_explicit kvs :
  (forall n1 n2 id, name2FieldID r !! n1 = Some id ->
                    name2FieldID r !! n2 = Some id -> n1 = n2) ->
  NoDup kvs.*1 -> NoDup (omap (explicitEntry r) kvs).*1.
Proof.
  intros Hinj. induction kvs as [|[k v] kvs IH]; cbn; intros Hnd.
  - constructor.
  - apply NoDup_cons in Hnd as [Hk Hnd]. specialize (IH Hnd).
    destruct (explicitEntry r (k, v)) as [[id data]|] eqn:He; [|exact IH].
    cbn. apply NoDup_cons. split; [|exact IH].
    intros Hin. apply list_elem_of_fmap in Hin as ([id' data'] & Hid & Hin).
    cbn in Hid. subst id'.
    apply elem_of_explicit in Hin as (k' & v' & Hin & Hk' & _).
    unfold explicitEntry in He. cbn in He.
    destruct (name2FieldID r !! k) as [id0|] eqn:Hk0; [|discriminate].
    destruct (parseEntity r id0 v); [|discriminate]. injection He as -> _.
    assert (k' = k) as -> by (eapply Hinj; eassumption).
    apply Hk. apply list_elem_of_fmap. exists (k, v'). split; [reflexivity | exact Hin].
Qed.

(** The side buffer after a successful loop over the pairs of a record is
    the map of its extra pairs. *)
Lemma parsePairs_dyn (stringMap : gmap string any) kvs row' dyn' :
  kvs ≡ₚ map_to_list stringMap ->
  foldM (parsePair r) kvs (∅, ∅) = Ok (row', dyn') ->
  dyn' = extraPairs r stringMap.
Proof.
  intros Hperm Hloop. apply parsePairs_Ok in Hloop as [_ ->].
  assert (Hnd : NoDup kvs.*1).
  { rewrite Hperm. apply NoDup_fst_map_to_list. }
  apply map_eq. intros k. apply option_eq. intros v.
  rewrite foldl_insert_lookup.
  - unfold extraPairs. rewrite map_lookup_filter_Some, list_elem_of_filter.
    rewrite Hperm, elem_of_map_to_list. cbn. tauto.
  - eapply sublist_NoDup; [exact Hnd|]. apply fmap_sublist, sublist_filter.
Qed.

(** The slots of the row after a successful loop are those of the explicit
    fields that occur as keys. *)
Lemma parsePairs_row_is_Some kvs row' dyn' (fieldID : Z) :
  foldM (parsePair r) kvs (∅, ∅) = Ok (row', dyn') ->
  is_Some (row' !! fieldID)
  <-> exists k v, (k, v) ∈ kvs /\ name2FieldID r !! k = Some fieldID.
Proof.
  intros Hloop.
  assert (Hall : forallb (pairOk r) kvs = true).
  { apply (parsePairs_is_Ok kvs (∅, ∅)). eexists; exact Hloop. }
  apply parsePairs_Ok in Hloop as [-> _].
  rewrite foldl_insert_is_Some, lookup_empty, list_elem_of_fmap. split.
  - intros [([id data] & Hid & Hin)|[? [=]]]. cbn in Hid. subst id.
    apply elem_of_explicit in Hin as (k & v & Hin & Hk & _). eauto.
  - intros (k & v & Hin & Hk). left.
    eapply forallb_forall in Hall; [|apply list_elem_of_In, Hin].
    unfold pairOk in Hall. cbn in Hall. rewrite Hk in Hall.
    destruct (parseEntity r fieldID v) as [data|] eqn:Hp; [|discriminate].
    exists (fieldID, data). split; [reflexivity|].
    apply elem_of_explicit. eauto.
Qed.

(** With no two names sharing an ID, the row after a successful loop is
    determined slot by slot by the pairs, not by their order. *)
Lemma parsePairs_row_lookup kvs row' dyn' (fieldID : Z) (data : Value) :
  (forall n1 n2 id, name2FieldID r !! n1 = Some id ->
                    name2FieldID r !! n2 = Some id -> n1 = n2) ->
  NoDup kvs.*1 ->
  foldM (parsePair r) kvs (∅, ∅) = Ok (row', dyn') ->
  row' !! fieldID = Some data
  <-> exists k v, (k, v) ∈ kvs /\ name2FieldID r !! k = Some fieldID
                  /\ parseEntity r fieldID v = Ok data.
Proof.
  intros Hinj Hnd Hloop. apply parsePairs_Ok in Hloop as [-> _].
  rewrite foldl_insert_lookup by (apply NoDup_explicit; assumption).
  apply elem_of_explicit.
Qed.



End ParseLoops.

(* ===================================================================== *)
(** ** Properties of Parse                                                *)
(* ===================================================================== *)

Section Decode.
Context `{L : GoLib}.
Implicit Types (rng : MapRange) (r : rowParser) (stringMap : gmap string any)
  (row : Row) (dyn : gmap string any).

Lemma elem_of_range {V : Type} rng (m : gmap string V) (k : string) (v : V) :
  (k, v) ∈ range_of rng m <-> m !! k = Some v.
Proof. rewrite (range_perm rng V m). apply elem_of_map_to_list. Qed.

Lemma NoDup_range {V : Type} rng (m : gmap string V) : NoDup (range_of rng m).*1.
Proof. rewrite (range_perm rng V m). apply NoDup_fst_map_to_list. Qed.

Lemma Parse_unfold rng r stringMap :
  Parse rng r (AnyMap stringMap)
  = if pkSupplied r stringMap then Err (AutoIDProvided (GetName (pkField r)))
    else
      st ← foldM (parsePair r) (range_of rng stringMap) (∅, ∅);
      _ ← foldM (checkField st.1) (range_of rng (name2FieldID r)) tt;
      match dynamicField r with
      | None => Ok st.1
      | Some _ => combineDynamicRow r st.2 st.1
      end.
Proof.
  unfold Parse, pkSupplied. destruct (_ && _); [reflexivity|].
  destruct (foldM (parsePair r) (range_of rng stringMap) (∅, ∅)) as [[row dyn]|];
    reflexivity.
Qed.

Lemma checkField_eq row (n : string) (id : Z) :
  checkField row tt (n, id)
  = match row !! id with Some _ => Ok tt | None => Err (FieldMissed n) end.
Proof. reflexivity. Qed.

(** The loop over [name2FieldID] passes exactly when every entry has its
    slot in the row; when it fails, it names an entry that has none. *)
Lemma checkFields_is_Ok row (entries : list (string * Z)) :
  is_Ok (foldM (checkField row) entries tt)
  <-> forall n id, (n, id) ∈ entries -> is_Some (row !! id).
Proof.
  induction entries as [|[n id] entries IH].
  - cbn. split; [|intros _; eexists; reflexivity].
    intros _ n id Hin. apply elem_of_nil in Hin as [].
  - cbn [foldM]. rewrite (checkField_eq row n id).
    destruct (row !! id) as [x|] eqn:Hid.
    + change (is_Ok (foldM (checkField row) entries tt)
              <-> forall n0 id0, (n0, id0) ∈ (n, id) :: entries -> is_Some (row !! id0)).
      rewrite IH. split.
      * intros Hall n' id' Hin. apply elem_of_cons in Hin as [[= -> ->]|Hin].
        -- rewrite Hid. eexists; reflexivity.
        -- apply (Hall n' id' Hin).
      * intros Hall n' id' Hin. apply (Hall n' id'). apply elem_of_cons. auto.
    + split; [intros [? [=]]|]. intros Hall.
      destruct (Hall n id) as [x Hx]; [apply elem_of_cons; auto|]. congruence.
Qed.

Lemma checkFields_Err row (entries : list (string * Z)) (e : error) :
  foldM (checkField row) entries tt = Err e ->
  exists n id, (n, id) ∈ entries /\ row !! id = None /\ e = FieldMissed n.
Proof.
  induction entries as [|[n id] entries IH]; [discriminate|].
  cbn [foldM]. rewrite (checkField_eq row n id).
  destruct (row !! id) as [x|] eqn:Hid.
  - change (foldM (checkField row) entries tt = Err e ->
            exists n0 id0, (n0, id0) ∈ (n, id) :: entries /\ row !! id0 = None
                           /\ e = FieldMissed n0).
    intros He. destruct (IH He) as (n' & id' & Hin & Hnone & ->).
    exists n', id'. split; [apply elem_of_cons; auto | auto].
  - intros [= <-]. exists n, id. split; [apply elem_of_cons; auto | auto].
Qed.

(** A key that is no explicit field, met without a dynamic field, ends the
    loop whatever the state. *)
Lemma parsePair_undefined r (st : Row * gmap string any) (k : string) (v : any) :
  dynamicField r = None -> name2FieldID r !! k = None ->
  parsePair r st (k, v) = Err (FieldNotDefined k).
Proof.
  intros Hdyn Hk. destruct st as [row dyn]. unfold parsePair.
  rewrite Hk, Hdyn. reflexivity.
Qed.

(** The name of the dynamic field, met as a key, ends the loop too. *)
Lemma parsePair_dynamic_name r (st : Row * gmap string any) (d : FieldSchema) (v : any) :
  dynamicField r = Some d -> name2FieldID r !! Name d = None ->
  parsePair r st (Name d, v) = Err (DynamicFieldSpecified (Name d)).
Proof.
  intros Hdyn Hk. destruct st as [row dyn]. unfold parsePair.
  rewrite Hk, Hdyn. rewrite decide_True by reflexivity. reflexivity.
Qed.

Lemma Parse_loop_Err rng r stringMap :
  is_Err (foldM (parsePair r) (range_of rng stringMap) (∅, ∅)) ->
  is_Err (Parse rng r (AnyMap stringMap)).
Proof.
  intros [e He]. rewrite Parse_unfold.
  destruct (pkSupplied r stringMap); [eexists; reflexivity|].
  rewrite He. exists e. reflexivity.
Qed.

End Decode.

(** C3: when the primary key is auto-generated, a record that has a key
    equal to the primary key's name is refused with the schema violation
    made for it, whatever value stands under that key and whatever else
    the record holds: the check comes before the loop over the pairs. *)
Theorem auto_generated_key_rejected `{L : GoLib} (rng : MapRange) (r : rowParser)
    (stringMap : gmap string any) (v : any) :
  GetAutoID (pkField r) = true ->
  stringMap !! GetName (pkField r) = Some v ->
  Parse rng r (AnyMap stringMap) = Err (AutoIDProvided (GetName (pkField r)))
  /\ kindOf (AutoIDProvided (GetName (pkField r))) = SchemaViolation.
Proof.
  intros Hauto Hkey. split; [|reflexivity].
  unfold Parse. rewrite Hauto, bool_decide_eq_true_2; [reflexivity|].
  rewrite Hkey. eexists; reflexivity.
Qed.

Lemma auto_generated_key_rejected_witness :
  let r := Sample.parserOf Sample.autoSchema in
  let stringMap := Sample.record [("id", AnySlice [AnyNil]); ("vector", AnyBool true);
                                  ("other", AnyNumber "1")] in
  GetAutoID (pkField r) = true
  /\ stringMap !! GetName (pkField r) = Some (AnySlice [AnyNil])
  /\ @Parse Sample.lib range_rev r (AnyMap stringMap) = Err (AutoIDProvided "id").
Proof.
  cbn zeta. split; [reflexivity|]. split; [reflexivity|].
  apply (@auto_generated_key_rejected Sample.lib range_rev
           (Sample.parserOf Sample.autoSchema) _ (AnySlice [AnyNil]));
    reflexivity.
Defined.

(** C7, as stated, does not hold: without a dynamic field, a record with an
    undefined key [x] whose primary key is a string instead of a number is
    refused, in the order that visits [id] first, with the type mismatch of
    [id], not with a schema violation naming [x]. *)
Lemma undefined_field_may_not_be_reported :
  let r := Sample.parserOf Sample.plainSchema in
  let stringMap := Sample.record [("id", AnyString "1"); ("vector", Sample.vec2);
                                  ("x", AnyNumber "8")] in
  dynamicField r = None
  /\ stringMap !! "x" = Some (AnyNumber "8")
  /\ name2FieldID r !! "x" = None
  /\ ~ (exists e, @Parse Sample.lib range_fwd r (AnyMap stringMap) = Err e
                  /\ kindOf e = SchemaViolation).
Proof.
  cbn zeta. repeat apply conj; try reflexivity.
  intros (e & He & Hkind).
  assert (Hrun : @Parse Sample.lib range_fwd (Sample.parserOf Sample.plainSchema)
                   (AnyMap (Sample.record [("id", AnyString "1");
                                           ("vector", Sample.vec2);
                                           ("x", AnyNumber "8")]))
                 = Err (TypeError DataType_Int64 "id" (AnyString "1")))
    by reflexivity.
  rewrite Hrun in He. injection He as <-. discriminate Hkind.
Qed.

(** C7 (amended): without a dynamic field, a record with a key that is no
    explicit field is always refused and no row is returned; the error is the
    schema violation naming that key when no check fails before the key is
    reached, that is, when the auto-generated primary key is not supplied and
    the pairs visited before it are all accepted. *)
Theorem undefined_field_rejected `{L : GoLib} (rng : MapRange) (r : rowParser)
    (stringMap : gmap string any) (k : string) (v : any) :
  dynamicField r = None ->
  stringMap !! k = Some v ->
  name2FieldID r !! k = None ->
  is_Err (Parse rng r (AnyMap stringMap))
  /\ (forall pre post : list (string * any),
        pkSupplied r stringMap = false ->
        range_of rng stringMap = (pre ++ (k, v) :: post)%list ->
        forallb (pairOk r) pre = true ->
        Parse rng r (AnyMap stringMap) = Err (FieldNotDefined k)
        /\ kindOf (FieldNotDefined k) = SchemaViolation).
Proof.
  intros Hdyn Hkv Hk. split.
  - apply Parse_loop_Err. apply foldM_elem_Err with (x := (k, v)).
    + apply elem_of_range, Hkv.
    + intros st. exists (FieldNotDefined k). apply parsePair_undefined; assumption.
  - intros pre post Hpk Hrange Hpre. split; [|reflexivity].
    rewrite Parse_unfold, Hpk, Hrange, foldM_app.
    apply (parsePairs_is_Ok r pre (∅, ∅)) in Hpre as [st ->]. cbn.
    rewrite (parsePair_undefined r st k v Hdyn Hk). reflexivity.
Qed.

Lemma undefined_field_rejected_witness :
  let r := Sample.parserOf Sample.plainSchema in
  let stringMap := Sample.record [("id", AnyNumber "1"); ("vector", Sample.vec2);
                                  ("x", AnyNumber "8")] in
  dynamicField r = None
  /\ stringMap !! "x" = Some (AnyNumber "8")
  /\ name2FieldID r !! "x" = None
  /\ @Parse Sample.lib range_fwd r (AnyMap stringMap) = Err (FieldNotDefined "x").
Proof.
  cbn zeta. split; [reflexivity|]. split; [reflexivity|]. split; [reflexivity|].
  pose proof (@undefined_field_rejected Sample.lib range_fwd
                (Sample.parserOf Sample.plainSchema)
                (Sample.record [("id", AnyNumber "1"); ("vector", Sample.vec2);
                                ("x", AnyNumber "8")])
                "x" (AnyNumber "8") eq_refl eq_refl eq_refl) as [_ Hfirst].
  apply (Hfirst [("id", AnyNumber "1"); ("vector", Sample.vec2)] []); reflexivity.
Defined.

(* ===================================================================== *)
(** ** The dynamic field, required fields, and the order of the keys      *)
(* ===================================================================== *)

Section Outcome.
Context `{L : GoLib}.
Implicit Types (rng : MapRange) (r : rowParser) (stringMap : gmap string any)
  (row : Row) (dyn : gmap string any).

(** [NewRowParser] leaves the dynamic field's name out of the name map. *)
Lemma NewRowParser_dynamic_name (schema : CollectionSchema) r (d : FieldSchema) :
  NewRowParser schema = Ok r -> dynamicField r = Some d ->
  name2FieldID r !! Name d = None.
Proof.
  intros Hnew Hd.
  destruct (NewRowParser_Ok _ _ Hnew) as (vecField & dm & pk & _ & _ & _ & ->).
  cbn in *. unfold explicitNames. rewrite Hd. apply lookup_delete_eq.
Qed.

(** What a successful decode went through. *)
Lemma Parse_Ok rng r stringMap row :
  Parse rng r (AnyMap stringMap) = Ok row ->
  pkSupplied r stringMap = false
  /\ exists row0 dyn0,
       foldM (parsePair r) (range_of rng stringMap) (∅, ∅) = Ok (row0, dyn0)
       /\ (forall n id, name2FieldID r !! n = Some id -> is_Some (row0 !! id))
       /\ match dynamicField r with
          | None => row = row0
          | Some _ => combineDynamicRow r dyn0 row0 = Ok row
          end.
Proof.
  rewrite Parse_unfold. destruct (pkSupplied r stringMap); [discriminate|].
  rewrite bind_Ok. intros ([row0 dyn0] & Hloop & Hrest). cbn [fst snd] in Hrest.
  apply bind_Ok in Hrest as ([] & Hcheck & Hfinal).
  split; [reflexivity|]. exists row0, dyn0. split; [exact Hloop|]. split.
  - intros n id Hn.
    apply (proj1 (checkFields_is_Ok row0 (range_of rng (name2FieldID r)))
             (ex_intro _ tt Hcheck) n id).
    apply elem_of_range, Hn.
  - destruct (dynamicField r); [exact Hfinal|]. injection Hfinal as ->. reflexivity.
Qed.

(** Once the loop over the pairs has succeeded, the rest of [Parse] is the
    check of the required fields and the merge of the dynamic values. *)
Lemma Parse_after_loop rng r stringMap row dyn :
  pkSupplied r stringMap = false ->
  foldM (parsePair r) (range_of rng stringMap) (∅, ∅) = Ok (row, dyn) ->
  Parse rng r (AnyMap stringMap)
  = (_ ← foldM (checkField row) (range_of rng (name2FieldID r)) tt;
     match dynamicField r with
     | None => Ok row
     | Some _ => combineDynamicRow r dyn row
     end).
Proof. intros Hpk Hloop. rewrite Parse_unfold, Hpk, Hloop. reflexivity. Qed.



End Outcome.

(** C2: for an index with a dynamic field, (1) a record that has the dynamic
    field's own name as a key is always refused; and in the row of a
    successful decode, (2) when the record has keys that are no explicit
    field, the dynamic field's ID holds the bytes [json.Marshal] gives for
    the map of those pairs, (3) when it has none, it holds the string
    of the empty object. *)
Theorem dynamic_field_aggregation `{L : GoLib} (rng : MapRange)
    (schema : CollectionSchema) (r : rowParser) (d : FieldSchema)
    (stringMap : gmap string any) :
  NewRowParser schema = Ok r ->
  dynamicField r = Some d ->
  (is_Some (stringMap !! Name d) -> is_Err (Parse rng r (AnyMap stringMap)))
  /\ (forall row,
        Parse rng r (AnyMap stringMap) = Ok row ->
        (extraPairs r stringMap <> ∅ ->
         exists bs, json_Marshal (AnyMap (extraPairs r stringMap)) = Ok bs
                    /\ row !! FieldID d = Some (V_bytes bs))
        /\ (extraPairs r stringMap = ∅ ->
            row !! FieldID d = Some (V_string "{}"))).
Proof.
  intros Hnew Hd. split.
  - intros [v Hv]. apply Parse_loop_Err.
    apply foldM_elem_Err with (x := (Name d, v)).
    + apply elem_of_range, Hv.
    + intros st. exists (DynamicFieldSpecified (Name d)).
      apply parsePair_dynamic_name; [exact Hd|].
      eapply NewRowParser_dynamic_name; eassumption.
  - intros row Hrow.
    apply Parse_Ok in Hrow as (_ & row0 & dyn0 & Hloop & _ & Hfinal).
    rewrite Hd in Hfinal.
    apply (parsePairs_dyn r stringMap) in Hloop; [|apply range_perm]. subst dyn0.
    unfold combineDynamicRow in Hfinal. rewrite Hd in Hfinal. cbn [GetFieldID] in Hfinal.
    destruct (decide (0 < Z.of_nat (size (extraPairs r stringMap)))) as [Hpos|Hzero].
    + apply bind_Ok in Hfinal as (data & Hdata & [= <-]).
      apply parseEntity_map_Ok in Hdata as (_ & bs & Hbs & ->). split.
      * intros _. exists bs. split; [exact Hbs|]. apply lookup_insert_eq.
      * intros Hempty. rewrite Hempty, map_size_empty in Hpos. lia.
    + injection Hfinal as <-. split.
      * intros Hne. exfalso. apply Hne. apply map_size_empty_iff. lia.
      * intros _. apply lookup_insert_eq.
Qed.

Lemma dynamic_field_aggregation_witness :
  let r := Sample.parserOf Sample.dynSchema in
  let stringMap := Sample.record [("id", AnyNumber "1"); ("vector", Sample.vec2);
                                  ("x", AnyNumber "8")] in
  NewRowParser Sample.dynSchema = Ok r
  /\ dynamicField r = Some Sample.metaField
  /\ extraPairs r stringMap = Sample.record [("x", AnyNumber "8")]
  /\ exists row bs,
       @Parse Sample.lib range_fwd r (AnyMap stringMap) = Ok row
       /\ @json_Marshal Sample.lib (AnyMap (extraPairs r stringMap)) = Ok bs
       /\ row !! 102 = Some (V_bytes bs).
Proof.
  cbn zeta. split; [reflexivity|]. split; [reflexivity|]. split; [reflexivity|].
  set (r := Sample.parserOf Sample.dynSchema).
  set (stringMap := Sample.record [("id", AnyNumber "1"); ("vector", Sample.vec2);
                                   ("x", AnyNumber "8")]).
  assert (Hrun : isOk (@Parse Sample.lib range_fwd r (AnyMap stringMap)) = true)
    by reflexivity.
  destruct (@Parse Sample.lib range_fwd r (AnyMap stringMap)) as [row|e] eqn:Hrow;
    [|discriminate Hrun].
  destruct (@dynamic_field_aggregation Sample.lib range_fwd Sample.dynSchema r
              Sample.metaField stringMap eq_refl eq_refl) as [_ Hagg].
  destruct (Hagg row Hrow) as [Hextra _].
  destruct Hextra as (bs & Hbs & Hslot).
  - intros Hempty.
    assert (Hx : extraPairs r stringMap !! "x" = Some (AnyNumber "8")) by reflexivity.
    rewrite Hempty in Hx. discriminate Hx.
  - exists row, bs. repeat split; assumption.
Defined.

(** C8: for a record that passed the guard of the primary key and whose
    pairs were all accepted by the loop, (a) a slot of the row is filled
    exactly when the record has a key naming an explicit field with that ID;
    (b) if some explicit field's ID is absent from the row, the decode fails
    with the schema violation naming an explicit field whose ID is absent;
    (c) otherwise the decode goes on to the merge of the dynamic values, so
    that, that merge succeeding, the decode succeeds if and only if every
    explicit field has its slot. *)
Theorem required_fields_checked `{L : GoLib} (rng : MapRange) (r : rowParser)
    (stringMap : gmap string any) (row : Row) (dyn : gmap string any) :
  pkSupplied r stringMap = false ->
  foldM (parsePair r) (range_of rng stringMap) (∅, ∅) = Ok (row, dyn) ->
  let merge := match dynamicField r with
               | None => Ok row
               | Some _ => combineDynamicRow r dyn row
               end in
  (forall id, is_Some (row !! id)
              <-> exists k, is_Some (stringMap !! k) /\ name2FieldID r !! k = Some id)
  /\ ((exists n id, name2FieldID r !! n = Some id /\ row !! id = None) ->
      exists n id, name2FieldID r !! n = Some id /\ row !! id = None
                   /\ Parse rng r (AnyMap stringMap) = Err (FieldMissed n)
                   /\ kindOf (FieldMissed n) = SchemaViolation)
  /\ ((forall n id, name2FieldID r !! n = Some id -> is_Some (row !! id)) ->
      Parse rng r (AnyMap stringMap) = merge)
  /\ (is_Ok merge ->
      (is_Ok (Parse rng r (AnyMap stringMap))
       <-> forall n id, name2FieldID r !! n = Some id -> is_Some (row !! id))).
Proof.
  intros Hpk Hloop merge.
  pose proof (Parse_after_loop rng r stringMap row dyn Hpk Hloop) as Hparse.
  fold merge in Hparse.
  assert (Hpresent : (forall n id, name2FieldID r !! n = Some id -> is_Some (row !! id))
                     -> Parse rng r (AnyMap stringMap) = merge).
  { intros Hall. rewrite Hparse.
    destruct (proj2 (checkFields_is_Ok row (range_of rng (name2FieldID r)))) as [[] ->].
    - intros n id Hin. apply (Hall n id). apply elem_of_range in Hin. exact Hin.
    - reflexivity. }
  assert (Hmissing : forall e,
             foldM (checkField row) (range_of rng (name2FieldID r)) tt = Err e ->
             exists n id, name2FieldID r !! n = Some id /\ row !! id = None
                          /\ Parse rng r (AnyMap stringMap) = Err (FieldMissed n)).
  { intros e He. destruct (checkFields_Err _ _ _ He) as (n & id & Hin & Hnone & ->).
    exists n, id. split; [apply elem_of_range in Hin; exact Hin|].
    split; [exact Hnone|]. rewrite Hparse, He. reflexivity. }
  repeat apply conj.
  - intros id. rewrite (parsePairs_row_is_Some r _ _ _ id Hloop). split.
    + intros (k & v & Hin & Hk). exists k. split; [|exact Hk].
      exists v. apply elem_of_range in Hin. exact Hin.
    + intros (k & [v Hv] & Hk). exists k, v. split; [|exact Hk].
      apply elem_of_range, Hv.
  - intros (n & id & Hn & Hnone).
    destruct (foldM (checkField row) (range_of rng (name2FieldID r)) tt)
      as [[]|e] eqn:Hcheck.
    + exfalso.
      assert (Hsome : is_Some (row !! id)).
      { apply (proj1 (checkFields_is_Ok row (range_of rng (name2FieldID r)))
                 (ex_intro _ tt Hcheck) n id).
        apply elem_of_range, Hn. }
      rewrite Hnone in Hsome. destruct Hsome as [? [=]].
    + destruct (Hmissing e eq_refl) as (n' & id' & Hn' & Hnone' & Herr).
      exists n', id'. repeat split; assumption.
  - exact Hpresent.
  - intros Hmerge. split.
    + intros Hok n id Hn.
      destruct (foldM (checkField row) (range_of rng (name2FieldID r)) tt)
        as [[]|e] eqn:Hcheck.
      * apply (proj1 (checkFields_is_Ok row (range_of rng (name2FieldID r)))
                 (ex_intro _ tt Hcheck) n id).
        apply elem_of_range, Hn.
      * destruct (Hmissing e eq_refl) as (n' & id' & _ & _ & Herr).
        rewrite Herr in Hok. destruct Hok as [? [=]].
    + intros Hall. rewrite (Hpresent Hall). exact Hmerge.
Qed.

Lemma required_fields_checked_witness :
  let r := Sample.parserOf Sample.plainSchema in
  let stringMap := Sample.record [("vector", Sample.vec2)] in
  pkSupplied r stringMap = false
  /\ isOk (foldM (@parsePair Sample.lib r) (range_of range_fwd stringMap) (∅, ∅)) = true
  /\ name2FieldID r !! "id" = Some 100
  /\ exists n, @Parse Sample.lib range_fwd r (AnyMap stringMap) = Err (FieldMissed n).
Proof.
  cbn zeta. split; [reflexivity|]. split; [reflexivity|]. split; [reflexivity|].
  set (r := Sample.parserOf Sample.plainSchema).
  set (stringMap := Sample.record [("vector", Sample.vec2)]).
  assert (Hrun : isOk (foldM (@parsePair Sample.lib r)
                         (range_of range_fwd stringMap) (∅, ∅)) = true)
    by reflexivity.
  destruct (foldM (@parsePair Sample.lib r) (range_of range_fwd stringMap) (∅, ∅))
    as [[row dyn]|e] eqn:Hloop; [|discriminate Hrun].
  destruct (@required_fields_checked Sample.lib range_fwd r stringMap row dyn
              eq_refl Hloop) as (Hslots & Hmissing & _).
  destruct Hmissing as (n & id & _ & _ & Herr & _).
  - exists "id", 100. split; [reflexivity|].
    apply eq_None_not_Some. intros Hsome. apply Hslots in Hsome as (k & Hk & Hid).
    destruct (decide (k = "vector")) as [->|Hne].
    + discriminate Hid.
    + destruct Hk as [v Hv]. subst stringMap. unfold Sample.record in Hv. cbn in Hv.
      rewrite lookup_insert_ne, lookup_empty in Hv by congruence. discriminate Hv.
  - exists n. exact Herr.
Defined.



(** The proviso on the IDs is needed: when two fields share an ID, both
    names write the same slot of the row and the last one visited wins. *)
Remark shared_id_depends_on_order :
  let r := Sample.parserOf Sample.sharedIdSchema in
  let stringMap := Sample.record [("a", AnyNumber "1"); ("b", AnyNumber "2");
                                  ("vector", Sample.vec2)] in
  (exists row, @Parse Sample.lib range_fwd r (AnyMap stringMap) = Ok row
               /\ row !! 1 = Some (V_int64 2))
  /\ (exists row, @Parse Sample.lib range_rev r (AnyMap stringMap) = Ok row
                  /\ row !! 1 = Some (V_int64 1)).
Proof. cbn zeta. split; eexists; split; reflexivity. Qed.

(* ===================================================================== *)
(** ** Further properties of the value coercion                           *)
(* ===================================================================== *)

Lemma digits_le_max (base0 : bool) (base maxVal : Z) (s : string) (n n' : Z)
    (us us' : bool) :
  n <= maxVal ->
  strconv.digits base0 base maxVal s n us = inr (n', us') -> n' <= maxVal.
Proof.
  revert n us. induction s as [|a s IH]; intros n us Hn; cbn.
  - intros [= <- _]. exact Hn.
  - destruct ((strconv.byteZ a =? 95) && base0); [apply IH, Hn|].
    destruct (if strconv.isDigit (strconv.byteZ a)
              then Some (strconv.byteZ a - 48)
              else if strconv.isLetter (strconv.byteZ a)
                   then Some (strconv.lower (strconv.byteZ a) - 97 + 10)
                   else None) as [d|]; [|discriminate].
    destruct (base <=? d); [discriminate|].
    destruct (maxVal <? n * base + d) eqn:Hlt; [discriminate|].
    apply IH. apply Z.ltb_ge in Hlt. exact Hlt.
Qed.

(** A literal [ParseUint] accepts at 8 bits is a byte. *)
Lemma ParseUint_byte (s : string) (n : Z) :
  strconv.ParseUint s 0 8 = Ok n -> 0 <= n < 256.
Proof.
  unfold strconv.ParseUint.
  pose proof (parseUint_nonneg s 0 8) as Hnn.
  destruct (strconv.parseUint s 0 8) as [un err] eqn:Hp. cbn in Hnn.
  destruct err; [discriminate|]. intros [= <-]. split; [exact Hnn|].
  unfold strconv.parseUint in Hp.
  destruct (strconv.len s =? 0); [discriminate|]. cbn in Hp.
  destruct (strconv.splitBase s) as [b ds].
  change (2 ^ 8 - 1) with 255 in Hp.
  destruct (strconv.digits true b 255 ds 0 false) as [[]|[n us]] eqn:Hd;
    try discriminate Hp.
  apply digits_le_max in Hd; [|lia].
  destruct (us && negb (strconv.underscoreOK s)); [discriminate|].
  injection Hp as <-. lia.
Qed.

Section MoreCoercion.
Context `{L : GoLib}.
Implicit Types (r : rowParser) (fieldID : Z) (arr : list any) (obj : any).

Lemma parseByteElem_Ok r fieldID (e : any) (b : Z) :
  parseByteElem r fieldID e = Ok b <->
  exists s, e = AnyNumber s /\ strconv.ParseUint s 0 8 = Ok b /\ 0 <= b < 256.
Proof.
  split.
  - destruct e; cbn; try discriminate.
    destruct (strconv.ParseUint s 0 8) as [n|] eqn:Hp; cbn; [|discriminate].
    intros [= <-]. pose proof (ParseUint_byte s n Hp) as Hb.
    unfold byte_of. rewrite Z.mod_small by lia. eauto.
  - intros (s & -> & Hp & Hb). cbn. rewrite Hp. cbn.
    unfold byte_of. rewrite Z.mod_small by lia. reflexivity.
Qed.

Lemma parseIntField_Ok r fieldID obj (bitSize n : Z) :
  parseIntField r fieldID obj bitSize = Ok n ->
  exists s, obj = AnyNumber s /\ strconv.ParseInt s 0 bitSize = Ok n.
Proof. destruct obj; cbn; try discriminate. eauto. Qed.

End MoreCoercion.

(** X1: [parseEntity] never converts between shapes.  A value whose runtime
    shape is not the one the field's declared type takes is refused with the
    type error carrying the declared type, the field's name and the value
    itself; a field whose type is the zero type (as for an ID that is not in
    the index) is refused as unsupported whatever the value; and a value is
    only ever accepted in a shape its type takes. *)
Theorem parseEntity_shapes `{L : GoLib} (r : rowParser) (fieldID : Z) (obj : any) :
  (GetDataType (id2Field r !! fieldID) = DataType_None ->
   parseEntity r fieldID obj = Err (UnsupportedDataType DataType_None))
  /\ (GetDataType (id2Field r !! fieldID) <> DataType_None ->
      acceptsShape (GetDataType (id2Field r !! fieldID)) (typeOf obj) = false ->
      parseEntity r fieldID obj
      = Err (TypeError (GetDataType (id2Field r !! fieldID))
               (GetName (id2Field r !! fieldID)) obj))
  /\ (forall v, parseEntity r fieldID obj = Ok v ->
                acceptsShape (GetDataType (id2Field r !! fieldID)) (typeOf obj) = true).
Proof.
  unfold parseEntity, wrapTypeError. repeat apply conj.
  - intros ->. reflexivity.
  - intros Hsome Hshape. unfold parseIntField, parseFloatField, wrapTypeError.
    destruct (GetDataType (id2Field r !! fieldID)); try contradiction;
      destruct obj; cbn in Hshape |- *; try discriminate Hshape; reflexivity.
  - intros v. unfold parseIntField, parseFloatField.
    destruct (GetDataType (id2Field r !! fieldID));
      destruct obj; cbn; intros Hv; try discriminate Hv; reflexivity.
Qed.

Lemma parseEntity_shapes_witness :
  let r := Sample.parserOf Sample.dynSchema in
  GetDataType (id2Field r !! 100) <> DataType_None
  /\ acceptsShape (GetDataType (id2Field r !! 100)) (typeOf (AnyString "7")) = false
  /\ @parseEntity Sample.lib r 100 (AnyString "7")
     = Err (TypeError DataType_Int64 "id" (AnyString "7"))
  /\ @parseEntity Sample.lib r 999 (AnyString "7")
     = Err (UnsupportedDataType DataType_None).
Proof.
  cbn zeta. split; [discriminate|]. split; [reflexivity|]. split.
  - apply (proj1 (proj2 (@parseEntity_shapes Sample.lib
                           (Sample.parserOf Sample.dynSchema) 100 (AnyString "7"))));
      [discriminate | reflexivity].
  - apply (proj1 (@parseEntity_shapes Sample.lib
                    (Sample.parserOf Sample.dynSchema) 999 (AnyString "7"))).
    reflexivity.
Defined.

(** X2: a scalar integer field stores exactly the integer its literal
    denotes: the literal is parsed at the width of the declared type, the
    narrowing conversion that follows never wraps, and an error of the
    parser is returned as it is. *)
Theorem int_field_exact `{L : GoLib} (r : rowParser) (fieldID : Z)
    (dataType : DataType) (bitSize : Z) (s : string) :
  GetDataType (id2Field r !! fieldID) = dataType ->
  intWidth dataType = Some bitSize ->
  (forall n, strconv.ParseInt s 0 bitSize = Ok n ->
             parseEntity r fieldID (AnyNumber s) = Ok (intValue dataType n)
             /\ - 2 ^ (bitSize - 1) <= n < 2 ^ (bitSize - 1))
  /\ (forall e, strconv.ParseInt s 0 bitSize = Err e ->
                parseEntity r fieldID (AnyNumber s) = Err e)
  /\ (forall v, parseEntity r fieldID (AnyNumber s) = Ok v ->
                exists n, strconv.ParseInt s 0 bitSize = Ok n /\ v = intValue dataType n).
Proof.
  intros Hdt Hw. unfold parseEntity. rewrite Hdt.
  assert (Hbits : 0 < bitSize)
    by (destruct dataType; try discriminate Hw; injection Hw as <-; lia).
  repeat apply conj.
  - intros n Hn. pose proof (ParseInt_range s 0 bitSize n Hbits Hn) as Hr.
    split; [|exact Hr].
    destruct dataType; try discriminate Hw; injection Hw as <-;
      cbn; rewrite Hn; cbn; rewrite ?toInt_id by (lia || exact Hr); reflexivity.
  - intros e He.
    destruct dataType; try discriminate Hw; injection Hw as <-;
      cbn; rewrite He; reflexivity.
  - intros v.
    destruct dataType; try discriminate Hw; injection Hw as <-; cbn;
      rewrite bind_Ok; intros (n & Hn & Hv); injection Hv as <-;
      exists n; (split; [exact Hn|]);
      try (rewrite toInt_id; [reflexivity | lia | ];
           eapply ParseInt_range; [|exact Hn]; lia);
      reflexivity.
Qed.

Lemma int_field_exact_witness :
  let r := Sample.parserOf Sample.dynSchema in
  GetDataType (id2Field r !! 100) = DataType_Int64
  /\ intWidth DataType_Int64 = Some 64
  /\ @parseEntity Sample.lib r 100 (AnyNumber "-9223372036854775808")
     = Ok (V_int64 (-9223372036854775808))
  /\ @parseEntity Sample.lib r 100 (AnyNumber "9223372036854775808")
     = Err (NumError "ParseInt" "9223372036854775808" ErrRange).
Proof.
  cbn zeta. split; [reflexivity|]. split; [reflexivity|]. split.
  - apply (proj1 (@int_field_exact Sample.lib (Sample.parserOf Sample.dynSchema) 100
                    DataType_Int64 64 "-9223372036854775808" eq_refl eq_refl)).
    reflexivity.
  - apply (proj1 (proj2 (@int_field_exact Sample.lib (Sample.parserOf Sample.dynSchema)
                           100 DataType_Int64 64 "9223372036854775808"
                           eq_refl eq_refl))).
    reflexivity.
Defined.

(** X3: an accepted binary or float16 vector keeps every element, in order:
    the stored bytes are as many as the list has elements, each is the value
    of the corresponding literal, parsed as an unsigned integer of 8 bits
    (so the conversion to a byte never wraps), and the scaled length of the
    list is the expected dim. *)
Theorem byte_vector_result `{L : GoLib} (r : rowParser) (fieldID : Z)
    (dataType : DataType) (arr : list any) (v : Value) :
  GetDataType (id2Field r !! fieldID) = dataType ->
  dataType = DataType_BinaryVector \/ dataType = DataType_Float16Vector ->
  parseEntity r fieldID (AnySlice arr) = Ok v ->
  exists vec,
    v = V_bytes vec
    /\ length vec = length arr
    /\ Forall2 (fun e b => exists s, e = AnyNumber s
                                     /\ strconv.ParseUint s 0 8 = Ok b
                                     /\ 0 <= b < 256) arr vec
    /\ actualDim dataType arr = dim r.
Proof.
  intros Hdt Hvec. unfold parseEntity. rewrite Hdt.
  assert (Hbody : forall d,
             (if decide (d ≠ dim r)
              then Err (wrapDimError r d fieldID)
              else vec ← mapM (parseByteElem r fieldID) arr; Ok (V_bytes vec)) = Ok v ->
             exists vec,
               v = V_bytes vec /\ length vec = length arr
               /\ Forall2 (fun e b => exists s, e = AnyNumber s
                                                /\ strconv.ParseUint s 0 8 = Ok b
                                                /\ 0 <= b < 256) arr vec
               /\ d = dim r).
  { intros d. destruct (decide (d ≠ dim r)) as [Hne|Heq]; [discriminate|].
    rewrite bind_Ok. intros (vec & Hvec' & [= <-]). exists vec.
    apply mapM_Ok in Hvec'. split; [reflexivity|]. split.
    - symmetry. eapply Forall2_length; exact Hvec'.
    - split.
      + eapply Forall2_impl; [exact Hvec'|]. intros e b. apply parseByteElem_Ok.
      + destruct (decide (d = dim r)); [assumption | contradiction]. }
  destruct Hvec as [-> | ->]; intros Hv; apply Hbody in Hv; exact Hv.
Qed.

Lemma byte_vector_result_witness :
  let r := Sample.parserOf
             (mkSchema [Sample.idField false;
                        Sample.vectorField DataType_BinaryVector 16]) in
  GetDataType (id2Field r !! 101) = DataType_BinaryVector
  /\ @parseEntity Sample.lib r 101 (AnySlice [AnyNumber "255"; AnyNumber "0x10"])
     = Ok (V_bytes [255; 16])
  /\ exists vec, V_bytes [255; 16] = @V_bytes Sample.lib vec /\ length vec = 2%nat.
Proof.
  cbn zeta. set (r := Sample.parserOf _).
  assert (Hdt : GetDataType (id2Field r !! 101) = DataType_BinaryVector)
    by reflexivity.
  assert (Hrun : @parseEntity Sample.lib r 101
                   (AnySlice [AnyNumber "255"; AnyNumber "0x10"])
                 = Ok (V_bytes [255; 16])) by reflexivity.
  split; [exact Hdt|]. split; [exact Hrun|].
  destruct (@byte_vector_result Sample.lib r 101 DataType_BinaryVector
              [AnyNumber "255"; AnyNumber "0x10"] (V_bytes [255; 16])
              Hdt (or_introl eq_refl) Hrun) as (vec & Hv & Hlen & _).
  exists vec. split; assumption.
Defined.

(** X4: an accepted float vector has exactly [dim] elements, one per
    element of the list, each the 32-bit value of the corresponding
    literal. *)
Theorem float_vector_result `{L : GoLib} (r : rowParser) (fieldID : Z)
    (arr : list any) (v : Value) :
  GetDataType (id2Field r !! fieldID) = DataType_FloatVector ->
  parseEntity r fieldID (AnySlice arr) = Ok v ->
  exists xs,
    v = V_float32s xs
    /\ Z.of_nat (length xs) = dim r
    /\ Forall2 (fun e x => exists s num, e = AnyNumber s
                                         /\ ParseFloat s 32 = Ok num
                                         /\ x = to_float32 num) arr xs.
Proof.
  intros Hdt. unfold parseEntity. rewrite Hdt.
  destruct (decide (Z.of_nat (length arr) ≠ dim r)) as [Hne|Heq]; [discriminate|].
  rewrite bind_Ok. intros (xs & Hxs & [= <-]). exists xs.
  apply mapM_Ok in Hxs. split; [reflexivity|]. split.
  - rewrite <- (Forall2_length _ _ _ Hxs).
    destruct (decide (Z.of_nat (length arr) = dim r)); [assumption | contradiction].
  - eapply Forall2_impl; [exact Hxs|]. intros e x.
    destruct e; cbn; try discriminate.
    rewrite bind_Ok. intros (num & Hnum & [= <-]). eauto.
Qed.

Lemma float_vector_result_witness :
  let r := Sample.parserOf Sample.dynSchema in
  GetDataType (id2Field r !! 101) = DataType_FloatVector
  /\ @parseEntity Sample.lib r 101 Sample.vec2 = Ok (@V_float32s Sample.lib [1; 2])
  /\ exists xs, @V_float32s Sample.lib [1; 2] = @V_float32s Sample.lib xs
                /\ Z.of_nat (length xs) = dim r.
Proof.
  cbn zeta. split; [reflexivity|]. split; [reflexivity|].
  destruct (@float_vector_result Sample.lib (Sample.parserOf Sample.dynSchema) 101
              [AnyNumber "1"; AnyNumber "2"] (@V_float32s Sample.lib [1; 2])
              eq_refl eq_refl)
    as (xs & Hv & Hlen & _).
  exists xs. split; assumption.
Defined.

(** X5: in a vector of the right length, the first element that does not
    conform ends the coercion, and the error is about that element alone:
    the type error carrying the element itself when it is not a number
    (where an array reports the whole array), the error of the parser when
    it is a number that is no byte. *)
Theorem byte_vector_first_bad `{L : GoLib} (r : rowParser) (fieldID : Z)
    (dataType : DataType) (pre post : list any) (x : any) :
  GetDataType (id2Field r !! fieldID) = dataType ->
  dataType = DataType_BinaryVector \/ dataType = DataType_Float16Vector ->
  actualDim dataType (pre ++ x :: post) = dim r ->
  forallb isByteElem pre = true ->
  isByteElem x = false ->
  exists e, parseEntity r fieldID (AnySlice (pre ++ x :: post)) = Err e
    /\ match x with
       | AnyNumber s => strconv.ParseUint s 0 8 = Err e
       | _ => e = TypeError dataType (GetName (id2Field r !! fieldID)) x
       end.
Proof.
  intros Hdt Hvec Hdim Hpre Hx.
  assert (Hpre' : Forall (fun a => is_Ok (parseByteElem r fieldID a)) pre).
  { apply Forall_forall. intros a Ha. apply parseByteElem_is_Ok.
    eapply forallb_forall in Hpre; [exact Hpre|]. apply list_elem_of_In, Ha. }
  assert (Hx' : exists e, parseByteElem r fieldID x = Err e
                /\ match x with
                   | AnyNumber s => strconv.ParseUint s 0 8 = Err e
                   | _ => e = TypeError dataType (GetName (id2Field r !! fieldID)) x
                   end).
  { unfold parseByteElem, wrapTypeError. rewrite Hdt.
    destruct x; cbn in *; try (eexists; split; reflexivity).
    destruct (strconv.ParseUint s 0 8) as [n|e]; [discriminate Hx|].
    exists e. split; reflexivity. }
  destruct Hx' as (e & He & Hshape). exists e. split; [|exact Hshape].
  unfold parseEntity. rewrite Hdt.
  destruct Hvec as [-> | ->]; cbn in Hdim |- *;
    (destruct (decide _) as [Hne|_]; [contradiction|]);
    rewrite (mapM_first_Err _ _ _ _ _ Hpre' He); reflexivity.
Qed.

Lemma byte_vector_first_bad_witness :
  let r := Sample.parserOf Sample.f16Schema in
  GetDataType (id2Field r !! 101) = DataType_Float16Vector
  /\ actualDim DataType_Float16Vector
       ([AnyNumber "1"] ++ AnyString "2" :: [AnyNumber "3"; AnyNumber "4"]) = dim r
  /\ exists e,
       @parseEntity Sample.lib r 101
         (AnySlice ([AnyNumber "1"] ++ AnyString "2" :: [AnyNumber "3"; AnyNumber "4"]))
       = Err e
       /\ e = TypeError DataType_Float16Vector "vector" (AnyString "2").
Proof.
  cbn zeta. split; [reflexivity|]. split; [reflexivity|].
  apply (@byte_vector_first_bad Sample.lib (Sample.parserOf Sample.f16Schema) 101
           DataType_Float16Vector [AnyNumber "1"] [AnyNumber "3"; AnyNumber "4"]
           (AnyString "2") eq_refl (or_intror eq_refl) eq_refl eq_refl eq_refl).
Defined.

(* ===================================================================== *)
(** ** Further properties of the array element coercion                   *)
(* ===================================================================== *)

Section MoreLoops.
Context {A B : Type}.

Lemma mapM_fmap_Ok (f : A -> Result B) (g : B -> A) (l : list B) :
  (forall x, f (g x) = Ok x) -> mapM f (g <$> l) = Ok l.
Proof.
  intros Hfg. induction l as [|x l IH]; cbn; [reflexivity|].
  rewrite Hfg. cbn. rewrite IH. reflexivity.
Qed.

Lemma mapM_Err_const (f : A -> Result B) (bad : error) (l : list A) (e : error) :
  (forall x e', f x = Err e' -> e' = bad) -> mapM f l = Err e -> e = bad.
Proof.
  intros Hf. induction l as [|x l IH]; cbn; [discriminate|].
  destruct (f x) as [y|e'] eqn:Hx; cbn.
  - destruct (mapM f l) as [ys|e'']; cbn; [discriminate|].
    intros [= <-]. apply IH. reflexivity.
  - intros [= <-]. eapply Hf. exact Hx.
Qed.

Lemma mapM_Ok_inv (f : A -> Result B) (g : B -> A) (l : list A) (ys : list B) :
  (forall x y, f x = Ok y -> x = g y) -> mapM f l = Ok ys -> l = g <$> ys.
Proof.
  intros Hf Hl. apply mapM_Ok in Hl.
  induction Hl as [|x y l ys Hxy _ IH]; cbn; [reflexivity|].
  rewrite (Hf x y Hxy), IH. reflexivity.
Qed.
End MoreLoops.

(** X6: [arrayToFieldData] has a branch for nine element types only; for
    any other element type it fails as unsupported whatever the list, even
    the empty one.  For a supported type the empty list is accepted, and an
    accepted list gives a sequence with exactly one value per element. *)
Theorem array_element_types `{L : GoLib} (eleType : DataType) :
  (supportedElem eleType = false ->
   forall arr, arrayToFieldData arr eleType = Err (UnsupportedArrayType eleType))
  /\ (supportedElem eleType = true ->
      exists sf, arrayToFieldData [] eleType = Ok sf /\ lengthOf sf = 0%nat)
  /\ (forall arr sf,
        arrayToFieldData arr eleType = Ok sf ->
        supportedElem eleType = true /\ lengthOf sf = length arr).
Proof.
  repeat apply conj.
  - intros Hun arr. destruct eleType; try discriminate Hun; reflexivity.
  - intros Hsup. destruct eleType; try discriminate Hsup;
      eexists; split; reflexivity.
  - intros arr sf.
    destruct eleType; cbn; try discriminate;
      rewrite bind_Ok; intros (values & Hvalues & [= <-]);
      (split; [reflexivity|]); cbn;
      symmetry; apply mapM_Ok in Hvalues;
      eapply Forall2_length; exact Hvalues.
Qed.

Lemma array_element_types_witness :
  supportedElem DataType_JSON = false
  /\ @arrayToFieldData Sample.lib [] DataType_JSON
     = Err (UnsupportedArrayType DataType_JSON)
  /\ supportedElem DataType_VarChar = true
  /\ exists sf, @arrayToFieldData Sample.lib [] DataType_VarChar = Ok sf
                /\ lengthOf sf = 0%nat.
Proof.
  split; [reflexivity|]. split.
  - apply (proj1 (@array_element_types Sample.lib DataType_JSON)). reflexivity.
  - split; [reflexivity|].
    apply (proj1 (proj2 (@array_element_types Sample.lib DataType_VarChar))).
    reflexivity.
Defined.

(** X7: arrays of booleans and of strings are taken as they are: a list of
    booleans (strings) gives back the same booleans (strings) in the same
    order, nothing else is accepted, and the only error is the type error
    carrying the declared element type and the whole array. *)
Theorem bool_and_string_arrays `{L : GoLib} :
  (forall bs, arrayToFieldData (AnyBool <$> bs) DataType_Bool
              = Ok (ScalarField_BoolData bs))
  /\ (forall arr sf, arrayToFieldData arr DataType_Bool = Ok sf ->
                     exists bs, arr = AnyBool <$> bs /\ sf = ScalarField_BoolData bs)
  /\ (forall arr e, arrayToFieldData arr DataType_Bool = Err e ->
                    e = ArrayValueTypeError DataType_Bool (AnySlice arr))
  /\ (forall eleType, eleType = DataType_VarChar \/ eleType = DataType_String ->
        (forall ss, arrayToFieldData (AnyString <$> ss) eleType
                    = Ok (ScalarField_StringData ss))
        /\ (forall arr sf, arrayToFieldData arr eleType = Ok sf ->
                           exists ss, arr = AnyString <$> ss
                                      /\ sf = ScalarField_StringData ss)
        /\ (forall arr e, arrayToFieldData arr eleType = Err e ->
                          e = ArrayValueTypeError eleType (AnySlice arr))).
Proof.
  repeat apply conj.
  - intros bs. cbn. rewrite mapM_fmap_Ok by reflexivity. reflexivity.
  - intros arr sf. cbn. rewrite bind_Ok. intros (bs & Hbs & [= <-]).
    exists bs. split; [|reflexivity].
    eapply mapM_Ok_inv; [|exact Hbs]. intros x y. destruct x; cbn; congruence.
  - intros arr e. cbn.
    destruct (mapM _ arr) as [bs|e'] eqn:Hm; cbn; [discriminate|].
    intros [= <-]. eapply mapM_Err_const; [|exact Hm].
    intros x e''. destruct x; cbn; unfold wrapArrayValueTypeError;
      intros Heq; congruence.
  - intros eleType Hty. repeat apply conj.
    + intros ss. destruct Hty as [-> | ->]; cbn;
        rewrite mapM_fmap_Ok by reflexivity; reflexivity.
    + intros arr sf. destruct Hty as [-> | ->]; cbn; rewrite bind_Ok;
        intros (ss & Hss & [= <-]); exists ss; (split; [|reflexivity]);
        (eapply mapM_Ok_inv; [|exact Hss]); intros x y; destruct x; cbn; congruence.
    + intros arr e. destruct Hty as [-> | ->]; cbn;
        (destruct (mapM _ arr) as [ss|e'] eqn:Hm; cbn; [discriminate|]);
        intros [= <-]; (eapply mapM_Err_const; [|exact Hm]);
        intros x e''; destruct x; cbn; unfold wrapArrayValueTypeError;
        intros Heq; congruence.
Qed.

Lemma bool_and_string_arrays_witness :
  @arrayToFieldData Sample.lib [AnyString "a"; AnyNumber "1"] DataType_VarChar
  = Err (ArrayValueTypeError DataType_VarChar
           (AnySlice [AnyString "a"; AnyNumber "1"]))
  /\ @arrayToFieldData Sample.lib (AnyString <$> ["a"; "b"]) DataType_String
     = Ok (ScalarField_StringData ["a"; "b"]).
Proof.
  pose proof (@bool_and_string_arrays Sample.lib) as (_ & _ & _ & Hstr).
  split.
  - destruct (@arrayToFieldData Sample.lib [AnyString "a"; AnyNumber "1"]
                DataType_VarChar) as [sf|e] eqn:Hrun.
    + apply (proj1 (proj2 (Hstr DataType_VarChar (or_introl eq_refl)))) in Hrun
        as (ss & Hss & _).
      destruct ss as [|s1 [|s2 ss]]; discriminate Hss.
    + f_equal.
      apply (proj2 (proj2 (Hstr DataType_VarChar (or_introl eq_refl))) _ _ Hrun).
  - apply (proj1 (Hstr DataType_String (or_intror eq_refl))).
Defined.

(** X8: an accepted array of integers holds, in order, the integers its
    literals denote, parsed at 32 bits for the element types int8, int16
    and int32 and at 64 bits for int64; the conversion to the stored width
    never wraps. *)
Theorem int_array_values `{L : GoLib} (eleType : DataType) (bitSize : Z)
    (arr : list any) (sf : ScalarField) :
  elemWidth eleType = Some bitSize ->
  arrayToFieldData arr eleType = Ok sf
  <-> exists ns, sf = intData eleType ns
                 /\ Forall2 (fun e n => exists s, e = AnyNumber s
                                                  /\ strconv.ParseInt s 0 bitSize = Ok n)
                      arr ns.
Proof.
  intros Hw.
  assert (H32 : forall bad e n,
             int32Elem bad e = Ok n
             <-> exists s, e = AnyNumber s /\ strconv.ParseInt s 0 32 = Ok n).
  { intros bad e n. split.
    - destruct e; cbn; try discriminate. rewrite bind_Ok.
      intros (num & Hnum & [= <-]). exists s. split; [reflexivity|].
      rewrite toInt_id; [exact Hnum | lia |].
      eapply ParseInt_range; [|exact Hnum]; lia.
    - intros (s & -> & Hs). cbn. rewrite Hs. cbn.
      rewrite toInt_id; [reflexivity | lia |].
      eapply ParseInt_range; [|exact Hs]; lia. }
  assert (Hfam : eleType = DataType_Int8 \/ eleType = DataType_Int16
                 \/ eleType = DataType_Int32 ->
                 bitSize = 32 ->
                 arrayToFieldData arr eleType = Ok sf
                 <-> exists ns, sf = ScalarField_IntData ns
                     /\ Forall2 (fun e n => exists s, e = AnyNumber s
                                            /\ strconv.ParseInt s 0 32 = Ok n) arr ns).
  { intros Hty _. rewrite (intArray_unfold _ _ Hty), bind_Ok. split.
    - intros (ns & Hns & [= <-]). exists ns. split; [reflexivity|].
      apply mapM_Ok in Hns. eapply Forall2_impl; [exact Hns|].
      intros e n. apply H32.
    - intros (ns & -> & Hall). exists ns. split; [|reflexivity].
      apply mapM_Ok. eapply Forall2_impl; [exact Hall|].
      intros e n. apply H32. }
  destruct eleType; try discriminate Hw; injection Hw as <-.
  - cbn [intData]. apply Hfam; auto.
  - cbn [intData]. apply Hfam; auto.
  - cbn [intData]. apply Hfam; auto.
  - cbn. rewrite bind_Ok. split.
    + intros (ns & Hns & [= <-]). exists ns. split; [reflexivity|].
      apply mapM_Ok in Hns. eapply Forall2_impl; [exact Hns|].
      intros e n. destruct e; cbn; try discriminate. eauto.
    + intros (ns & -> & Hall). exists ns. split; [|reflexivity].
      apply mapM_Ok. eapply Forall2_impl; [exact Hall|].
      intros e n (s & -> & Hs). exact Hs.
Qed.

Lemma int_array_values_witness :
  elemWidth DataType_Int64 = Some 64
  /\ @arrayToFieldData Sample.lib [AnyNumber "4294967296"; AnyNumber "-1"] DataType_Int64
     = Ok (ScalarField_LongData [4294967296; -1]).
Proof.
  split; [reflexivity|].
  apply (proj2 (@int_array_values Sample.lib DataType_Int64 64
                  [AnyNumber "4294967296"; AnyNumber "-1"]
                  (ScalarField_LongData [4294967296; -1]) eq_refl)).
  exists [4294967296; -1]. split; [reflexivity|].
  repeat constructor; eexists; split; reflexivity.
Defined.

(* ===================================================================== *)
(** ** Further properties of the schema index                             *)
(* ===================================================================== *)

Section MoreSliceMaps.
Context {T K V : Type} `{Countable K}.
Implicit Types (l : list T) (transform : T -> K * V).

Lemma SliceToMap_NoDup_size l transform :
  NoDup ((fun x => (transform x).1) <$> l) ->
  size (SliceToMap l transform) = length l.
Proof.
  induction l as [|t l IH] using rev_ind; intros Hnd.
  - unfold SliceToMap; cbn. apply map_size_empty.
  - rewrite fmap_app in Hnd. apply NoDup_app in Hnd as (Hnd & Hdisj & _).
    rewrite SliceToMap_snoc, length_app. cbn.
    rewrite map_size_insert_None; [rewrite IH by exact Hnd; lia|].
    apply eq_None_not_Some. intros Hs.
    apply SliceToMap_is_Some in Hs as (t' & Hin & Heq).
    apply (Hdisj (transform t).1).
    + apply list_elem_of_fmap. exists t'. split; [symmetry; exact Heq | exact Hin].
    + cbn. apply list_elem_of_singleton. reflexivity.
Qed.

(** Of the elements with a given key, the last one is the one kept. *)
Lemma SliceToMap_last_wins (pre post : list T) transform (t : T) :
  (forall t', t' ∈ post -> (transform t').1 <> (transform t).1) ->
  SliceToMap (pre ++ t :: post) transform !! (transform t).1 = Some (transform t).2.
Proof.
  induction post as [|t' post IH] using rev_ind; intros Hpost.
  - rewrite SliceToMap_snoc. apply lookup_insert_eq.
  - replace (pre ++ t :: post ++ [t'])%list with ((pre ++ t :: post) ++ [t'])%list
      by (rewrite <- app_assoc; reflexivity).
    rewrite SliceToMap_snoc, lookup_insert_ne.
    + apply IH. intros t'' Hin. apply Hpost. apply elem_of_app. left. exact Hin.
    + apply Hpost. apply elem_of_app. right. apply list_elem_of_singleton. reflexivity.
Qed.
End MoreSliceMaps.

Lemma fields_same_id (fields : list FieldSchema) (f1 f2 : FieldSchema) :
  NoDup (FieldID <$> fields) -> f1 ∈ fields -> f2 ∈ fields ->
  FieldID f1 = FieldID f2 -> f1 = f2.
Proof.
  intros Hnd Hin1 Hin2 Hid.
  apply list_elem_of_lookup in Hin1 as [i1 Hi1].
  apply list_elem_of_lookup in Hin2 as [i2 Hi2].
  assert (i1 = i2).
  { apply (NoDup_lookup _ i1 i2 (FieldID f1) Hnd); rewrite list_lookup_fmap.
    - rewrite Hi1. reflexivity.
    - rewrite Hi2. cbn. congruence. }
  congruence.
Qed.

Lemma GetDynamicField_elem (schema : CollectionSchema) (d : FieldSchema) :
  typeutil.GetDynamicField schema = Some d -> d ∈ Fields schema.
Proof.
  unfold typeutil.GetDynamicField. intros Hf.
  apply find_some in Hf as [Hin _]. apply list_elem_of_In, Hin.
Qed.

(** X9: the ID map of the index holds declared fields only, each under its
    own ID, and every declared ID is in it; where several fields bear one
    ID the last declared one is kept; so the map has one entry per declared
    field exactly when the IDs are distinct, and then every declared field
    is found under its ID. *)
Theorem id2Field_fields (schema : CollectionSchema) (r : rowParser) :
  NewRowParser schema = Ok r ->
  (forall id f, id2Field r !! id = Some f -> f ∈ Fields schema /\ FieldID f = id)
  /\ (forall f, f ∈ Fields schema -> is_Some (id2Field r !! FieldID f))
  /\ (forall pre f post,
        Fields schema = (pre ++ f :: post)%list ->
        (forall f', f' ∈ post -> FieldID f' <> FieldID f) ->
        id2Field r !! FieldID f = Some f)
  /\ (size (id2Field r) = length (Fields schema)
      <-> NoDup (FieldID <$> Fields schema))
  /\ (NoDup (FieldID <$> Fields schema) ->
      forall f, f ∈ Fields schema -> id2Field r !! FieldID f = Some f).
Proof.
  intros Hnew.
  destruct (NewRowParser_Ok _ _ Hnew) as (vecField & d & pk & _ & _ & _ & ->).
  cbn [id2Field]. rewrite KeyBy_SliceToMap. split; [|split; [|split; [|split]]].
  - intros id f Hl. apply SliceToMap_lookup_Some in Hl as (t & Hin & [= <- <-]).
    split; [exact Hin | reflexivity].
  - intros f Hin. apply SliceToMap_is_Some. exists f. split; [exact Hin | reflexivity].
  - intros pre f post -> Hpost.
    apply (SliceToMap_last_wins pre post (fun v => (FieldID v, v)) f). exact Hpost.
  - split.
    + apply SliceToMap_size_NoDup.
    + apply (SliceToMap_NoDup_size (Fields schema) (fun v => (FieldID v, v))).
  - intros Hnd f Hin.
    apply (SliceToMap_lookup_NoDup (Fields schema) (fun v => (FieldID v, v)) f Hnd Hin).
Qed.

Lemma id2Field_fields_witness :
  let r := Sample.parserOf Sample.sharedIdSchema in
  NewRowParser Sample.sharedIdSchema = Ok r
  /\ GetName (id2Field r !! 1) = "b"
  /\ size (id2Field r) <> length (Fields Sample.sharedIdSchema).
Proof.
  cbn zeta.
  assert (Hnew : NewRowParser Sample.sharedIdSchema
                 = Ok (Sample.parserOf Sample.sharedIdSchema)) by reflexivity.
  destruct (id2Field_fields _ _ Hnew) as (_ & _ & Hlast & Hsize & _).
  split; [exact Hnew|]. split.
  - change 1 with (FieldID (mkField 1 "b" false false false DataType_Int64
                              DataType_None None)) at 1.
    rewrite (Hlast [mkField 1 "a" true false false DataType_Int64 DataType_None None]
               (mkField 1 "b" false false false DataType_Int64 DataType_None None)
               [Sample.vectorField DataType_FloatVector 2] eq_refl).
    + reflexivity.
    + intros f' Hin. apply list_elem_of_singleton in Hin. subst f'. discriminate.
  - intros Heq. apply Hsize in Heq. cbn in Heq.
    apply NoDup_cons in Heq as [Hnotin _]. apply Hnotin. apply elem_of_cons. auto.
Defined.

Section IndexIDs.
Variables (schema : CollectionSchema) (r : rowParser).
Hypothesis Hnew : NewRowParser schema = Ok r.
Hypothesis Hsize : size (id2Field r) = length (Fields schema).

Lemma NewRowParser_NoDup : NoDup (FieldID <$> Fields schema).
Proof.
  destruct (NewRowParser_Ok _ _ Hnew) as (vecField & dm & pk & _ & _ & _ & Hr).
  subst r. cbn [id2Field] in Hsize. rewrite KeyBy_SliceToMap in Hsize.
  apply SliceToMap_size_NoDup in Hsize. exact Hsize.
Qed.

Lemma NewRowParser_field (n : string) (id : Z) :
  name2FieldID r !! n = Some id ->
  exists f, f ∈ Fields schema /\ Name f = n /\ FieldID f = id.
Proof.
  destruct (NewRowParser_Ok _ _ Hnew) as (vecField & dm & pk & _ & _ & _ & Hr).
  rewrite Hr. cbn [name2FieldID]. apply explicitNames_field.
Qed.

Lemma NewRowParser_inj (n1 n2 : string) (id : Z) :
  name2FieldID r !! n1 = Some id -> name2FieldID r !! n2 = Some id -> n1 = n2.
Proof.
  destruct (NewRowParser_Ok _ _ Hnew) as (vecField & dm & pk & _ & _ & _ & Hr).
  rewrite Hr. cbn [name2FieldID]. apply explicitNames_inj, NewRowParser_NoDup.
Qed.

Lemma explicit_id_not_dynamic (d : FieldSchema) (n : string) (id : Z) :
  dynamicField r = Some d -> name2FieldID r !! n = Some id -> id <> FieldID d.
Proof.
  intros Hd Hn Heq.
  destruct (NewRowParser_field n id Hn) as (f & Hin & Hname & Hid).
  assert (Hdin : d ∈ Fields schema).
  { destruct (NewRowParser_Ok _ _ Hnew) as (vecField & dm & pk & _ & _ & _ & Hr).
    rewrite Hr in Hd. cbn [dynamicField] in Hd. apply GetDynamicField_elem, Hd. }
  assert (f = d)
    by (apply (fields_same_id _ _ _ NewRowParser_NoDup Hin Hdin); congruence).
  subst f. rewrite <- Hname in Hn.
  rewrite (NewRowParser_dynamic_name schema r d Hnew Hd) in Hn.
  discriminate Hn.
Qed.

Lemma explicit_id_not_auto_pk (n : string) (id : Z) :
  GetAutoID (pkField r) = true -> name2FieldID r !! n = Some id ->
  id <> GetFieldID (pkField r).
Proof.
  intros Hauto Hn Heq.
  destruct (NewRowParser_field n id Hn) as (f & Hin & Hname & Hid).
  pose proof NewRowParser_NoDup as Hnd.
  destruct (NewRowParser_Ok _ _ Hnew) as (vecField & dm & pk & _ & _ & Hpk & Hr).
  assert (Hpkin : pk ∈ Fields schema) by (apply GetPrimaryFieldSchema_elem, Hpk).
  subst r. cbn [pkField GetAutoID GetFieldID name2FieldID] in *.
  assert (f = pk) by (apply (fields_same_id _ _ _ Hnd Hin Hpkin); congruence).
  subst f.
  assert (Hs : is_Some (explicitNames (Fields schema) pk
                          (typeutil.GetDynamicField schema) !! n))
    by (eexists; exact Hn).
  apply explicitNames_is_Some in Hs as (_ & Hno & _).
  apply Hno. split; [exact Hauto | symmetry; exact Hname].
Qed.
End IndexIDs.

(** X10: in an index with one entry per declared field, the explicit names
    and their IDs correspond one to one, and no explicit name has the ID of
    the dynamic field or of an auto-generated primary key: the slots the
    explicit fields write are never the slot of the dynamic field. *)
Theorem explicit_ids_distinct (schema : CollectionSchema) (r : rowParser) :
  NewRowParser schema = Ok r ->
  size (id2Field r) = length (Fields schema) ->
  (forall n1 n2 id, name2FieldID r !! n1 = Some id ->
                    name2FieldID r !! n2 = Some id -> n1 = n2)
  /\ (forall d n id, dynamicField r = Some d ->
                     name2FieldID r !! n = Some id -> id <> FieldID d)
  /\ (forall n id, GetAutoID (pkField r) = true ->
                   name2FieldID r !! n = Some id -> id <> GetFieldID (pkField r)).
Proof.
  intros Hnew Hsize. repeat apply conj.
  - apply (NewRowParser_inj schema r Hnew Hsize).
  - apply (explicit_id_not_dynamic schema r Hnew Hsize).
  - apply (explicit_id_not_auto_pk schema r Hnew Hsize).
Qed.

Lemma explicit_ids_distinct_witness :
  let r := Sample.parserOf Sample.dynSchema in
  NewRowParser Sample.dynSchema = Ok r
  /\ size (id2Field r) = length (Fields Sample.dynSchema)
  /\ dynamicField r = Some Sample.metaField
  /\ name2FieldID r !! "vector" = Some 101
  /\ 101 <> FieldID Sample.metaField.
Proof.
  cbn zeta. split; [reflexivity|]. split; [reflexivity|]. split; [reflexivity|].
  split; [reflexivity|].
  apply (proj1 (proj2 (explicit_ids_distinct Sample.dynSchema
                         (Sample.parserOf Sample.dynSchema) eq_refl eq_refl))
           Sample.metaField "vector" 101); reflexivity.
Defined.

(* ===================================================================== *)
(** ** Further properties of Parse                                        *)
(* ===================================================================== *)

Section MoreDecode.
Context `{L : GoLib}.
Implicit Types (rng : MapRange) (r : rowParser) (stringMap : gmap string any)
  (row : Row) (dyn : gmap string any).

Lemma size_pos_nonempty {V : Type} (m : gmap string V) :
  0 < Z.of_nat (size m) <-> m <> ∅.
Proof.
  rewrite <- map_size_non_empty_iff. lia.
Qed.

Lemma combineDynamicRow_empty r row :
  combineDynamicRow r ∅ row
  = Ok (<[GetFieldID (dynamicField r) := V_string "{}"]> row).
Proof.
  unfold combineDynamicRow. rewrite map_size_empty.
  destruct (decide (0 < Z.of_nat 0)) as [Hlt|_]; [lia | reflexivity].
Qed.

Lemma combineDynamicRow_nonempty r dyn row :
  dyn <> ∅ ->
  combineDynamicRow r dyn row
  = (data ← parseEntity r (GetFieldID (dynamicField r)) (AnyMap dyn);
     Ok (<[GetFieldID (dynamicField r) := data]> row)).
Proof.
  intros Hne. unfold combineDynamicRow.
  destruct (decide (0 < Z.of_nat (size dyn))) as [_|Hn]; [reflexivity|].
  exfalso. apply Hn, size_pos_nonempty, Hne.
Qed.

Lemma combineDynamicRow_Ok r dyn row row' :
  combineDynamicRow r dyn row = Ok row' ->
  exists data, row' = <[GetFieldID (dynamicField r) := data]> row.
Proof.
  destruct (decide (dyn = ∅)) as [->|Hne].
  - rewrite combineDynamicRow_empty. intros [= <-]. eauto.
  - rewrite (combineDynamicRow_nonempty r dyn row Hne), bind_Ok.
    intros (data & _ & [= <-]). eauto.
Qed.

Lemma combineDynamicRow_is_Ok r dyn row :
  is_Ok (combineDynamicRow r dyn row)
  <-> dyn = ∅ \/ is_Ok (parseEntity r (GetFieldID (dynamicField r)) (AnyMap dyn)).
Proof.
  destruct (decide (dyn = ∅)) as [->|Hne].
  - rewrite combineDynamicRow_empty. split; [auto | intros _; eexists; reflexivity].
  - rewrite (combineDynamicRow_nonempty r dyn row Hne). split.
    + intros [row' Hrow']. apply bind_Ok in Hrow' as (data & Hdata & _).
      right. eexists; exact Hdata.
    + intros [Hc|[data Hdata]]; [contradiction|]. rewrite Hdata. eexists; reflexivity.
Qed.

Lemma range_empty {V : Type} rng : range_of rng (∅ : gmap string V) = [].
Proof.
  apply Permutation_nil_r. rewrite (range_perm rng V ∅), map_to_list_empty.
  reflexivity.
Qed.

Lemma pairs_accepted rng r stringMap :
  forallb (pairOk r) (range_of rng stringMap) = true
  <-> forall k v, stringMap !! k = Some v -> pairOk r (k, v) = true.
Proof.
  rewrite forallb_forall. split.
  - intros Hall k v Hkv. apply Hall, list_elem_of_In, elem_of_range, Hkv.
  - intros Hall [k v] Hin. apply Hall. apply list_elem_of_In, elem_of_range in Hin.
    exact Hin.
Qed.

End MoreDecode.

(** X11: the merge of the dynamic values writes the slot of the dynamic
    field and no other.  With no dynamic values it cannot fail and stores the
    string of the empty object, whatever the declared type of the dynamic
    field; with some, it succeeds exactly when that field is of the JSON
    type and the values can be serialized. *)
Theorem combineDynamicRow_slot `{L : GoLib} (r : rowParser)
    (dynamicValues : gmap string any) (row : Row) :
  let dynamicFieldID := GetFieldID (dynamicField r) in
  (dynamicValues = ∅ ->
   combineDynamicRow r dynamicValues row
   = Ok (<[dynamicFieldID := V_string "{}"]> row))
  /\ (dynamicValues <> ∅ ->
      (is_Ok (combineDynamicRow r dynamicValues row)
       <-> GetDataType (id2Field r !! dynamicFieldID) = DataType_JSON
           /\ is_Ok (json_Marshal (AnyMap dynamicValues))))
  /\ (forall row',
        combineDynamicRow r dynamicValues row = Ok row' ->
        is_Some (row' !! dynamicFieldID)
        /\ forall id, id <> dynamicFieldID -> row' !! id = row !! id).
Proof.
  cbn zeta. split; [|split].
  - intros ->. apply combineDynamicRow_empty.
  - intros Hne. split.
    + intros Hok. apply combineDynamicRow_is_Ok in Hok as [Hc|[data Hdata]];
        [contradiction|].
      apply parseEntity_map_Ok in Hdata as (Hdt & bs & Hbs & _).
      split; [exact Hdt | eexists; exact Hbs].
    + intros [Hdt [bs Hbs]]. apply combineDynamicRow_is_Ok. right.
      unfold parseEntity. rewrite Hdt, Hbs. eexists; reflexivity.
  - intros row' Hrow'. apply combineDynamicRow_Ok in Hrow' as [data ->]. split.
    + rewrite lookup_insert_eq. eexists; reflexivity.
    + intros id Hid. apply lookup_insert_ne. congruence.
Qed.

Lemma combineDynamicRow_slot_witness :
  let r := Sample.parserOf Sample.dynSchema in
  let dyn := Sample.record [("x", AnyNumber "8")] in
  dyn <> ∅
  /\ GetDataType (id2Field r !! GetFieldID (dynamicField r)) = DataType_JSON
  /\ is_Ok (@combineDynamicRow Sample.lib r dyn ∅).
Proof.
  cbn zeta.
  assert (Hne : Sample.record [("x", AnyNumber "8")] <> ∅).
  { intros Heq.
    assert (Hx : Sample.record [("x", AnyNumber "8")] !! "x" = Some (AnyNumber "8"))
      by reflexivity.
    rewrite Heq in Hx. discriminate Hx. }
  split; [exact Hne|]. split; [reflexivity|].
  apply (proj1 (proj2 (@combineDynamicRow_slot Sample.lib
                         (Sample.parserOf Sample.dynSchema)
                         (Sample.record [("x", AnyNumber "8")]) ∅)) Hne).
  split; [reflexivity|]. eexists; reflexivity.
Defined.

Lemma Parse_row_is_Some `{L : GoLib} (rng : MapRange) (r : rowParser)
    (stringMap : gmap string any) (row : Row) :
  Parse rng r (AnyMap stringMap) = Ok row ->
  forall id,
    is_Some (row !! id)
    <-> (exists n, name2FieldID r !! n = Some id)
        \/ (is_Some (dynamicField r) /\ id = GetFieldID (dynamicField r)).
Proof.
  intros Hrow id.
  apply Parse_Ok in Hrow as (_ & row0 & dyn0 & Hloop & Hreq & Hfinal).
  assert (Hrow0 : is_Some (row0 !! id) <-> exists n, name2FieldID r !! n = Some id).
  { rewrite (parsePairs_row_is_Some r _ _ _ id Hloop). split.
    - intros (k & v & _ & Hk). eauto.
    - intros [n Hn]. apply (parsePairs_row_is_Some r _ _ _ id Hloop), (Hreq n id Hn). }
  destruct (dynamicField r) as [d|] eqn:Hd.
  - apply combineDynamicRow_Ok in Hfinal as [data ->]. rewrite Hd. cbn [GetFieldID].
    rewrite lookup_insert_is_Some, Hrow0. split.
    + intros [<-|[_ Hn]]; [right; split; [eexists|]; reflexivity | left; exact Hn].
    + intros [Hn|[_ ->]]; [|left; reflexivity].
      destruct (decide (FieldID d = id)) as [Heq|Hne]; [left; exact Heq | right; auto].
  - subst row. rewrite Hrow0. split; [auto|]. intros [Hn|[[? [=]] _]]. exact Hn.
Qed.

(** X12: the keys of a decoded row are exactly the IDs of the explicit
    fields, together with the ID of the dynamic field when there is one:
    no ID is missing, and no key of the record adds one. *)
Theorem row_keys `{L : GoLib} (rng : MapRange) (r : rowParser)
    (stringMap : gmap string any) (row : Row) :
  Parse rng r (AnyMap stringMap) = Ok row ->
  forall id,
    is_Some (row !! id)
    <-> (exists n, name2FieldID r !! n = Some id)
        \/ (is_Some (dynamicField r) /\ id = GetFieldID (dynamicField r)).
Proof. apply Parse_row_is_Some. Qed.

Lemma row_keys_witness :
  let r := Sample.parserOf Sample.dynSchema in
  let stringMap := Sample.record [("id", AnyNumber "1"); ("vector", Sample.vec2);
                                  ("x", AnyNumber "8")] in
  exists row,
    @Parse Sample.lib range_fwd r (AnyMap stringMap) = Ok row
    /\ is_Some (row !! 100) /\ is_Some (row !! 101) /\ is_Some (row !! 102)
    /\ ~ is_Some (row !! 103).
Proof.
  cbn zeta.
  set (r := Sample.parserOf Sample.dynSchema).
  set (stringMap := Sample.record _).
  assert (Hrun : isOk (@Parse Sample.lib range_fwd r (AnyMap stringMap)) = true)
    by reflexivity.
  destruct (@Parse Sample.lib range_fwd r (AnyMap stringMap)) as [row|e] eqn:Hrow;
    [|discriminate Hrun].
  pose proof (@row_keys Sample.lib range_fwd r stringMap row Hrow) as Hkeys.
  exists row. split; [reflexivity|]. repeat apply conj.
  - apply Hkeys. left. exists "id". reflexivity.
  - apply Hkeys. left. exists "vector". reflexivity.
  - apply Hkeys. right. split; [eexists|]; reflexivity.
  - intros Hs. apply Hkeys in Hs as [[n Hn]|[_ Hid]]; [|discriminate Hid].
    apply (NewRowParser_field Sample.dynSchema r eq_refl) in Hn
      as (f & Hin & _ & Hid).
    cbn in Hin. rewrite !elem_of_cons, elem_of_nil in Hin.
    destruct Hin as [->|[->|[->|[]]]]; discriminate Hid.
Defined.

(** X13: in an index with one entry per declared field, every key of the
    record that names an explicit field ends in the row as the coercion of
    its value by that field's type, under that field's ID; in particular a
    primary key that is supplied (it is then not auto-generated) is kept. *)
Theorem row_values `{L : GoLib} (rng : MapRange) (schema : CollectionSchema)
    (r : rowParser) (stringMap : gmap string any) (row : Row) :
  NewRowParser schema = Ok r ->
  size (id2Field r) = length (Fields schema) ->
  Parse rng r (AnyMap stringMap) = Ok row ->
  forall k v id,
    stringMap !! k = Some v -> name2FieldID r !! k = Some id ->
    exists data, parseEntity r id v = Ok data /\ row !! id = Some data.
Proof.
  intros Hnew Hsize Hrow k v id Hkv Hk.
  apply Parse_Ok in Hrow as (_ & row0 & dyn0 & Hloop & _ & Hfinal).
  assert (Hall : forallb (pairOk r) (range_of rng stringMap) = true).
  { apply (parsePairs_is_Ok r _ (∅, ∅)). eexists; exact Hloop. }
  pose proof (proj1 (pairs_accepted rng r stringMap) Hall k v Hkv) as Hkv_ok.
  clear Hall. rename Hkv_ok into Hall.
  unfold pairOk in Hall. cbn in Hall. rewrite Hk in Hall.
  destruct (parseEntity r id v) as [data|] eqn:Hdata; [|discriminate Hall].
  exists data. split; [reflexivity|].
  assert (Hrow0 : row0 !! id = Some data).
  { apply (parsePairs_row_lookup r (range_of rng stringMap) row0 dyn0 id data).
    - apply (NewRowParser_inj schema r Hnew Hsize).
    - apply NoDup_range.
    - exact Hloop.
    - exists k, v. split; [apply elem_of_range, Hkv | auto]. }
  destruct (dynamicField r) as [d|] eqn:Hd.
  - apply combineDynamicRow_Ok in Hfinal as [data' ->]. rewrite Hd. cbn [GetFieldID].
    rewrite lookup_insert_ne; [exact Hrow0|].
    intros Heq. apply (explicit_id_not_dynamic schema r Hnew Hsize d k id Hd Hk).
    symmetry. exact Heq.
  - subst row. exact Hrow0.
Qed.

Lemma row_values_witness :
  let r := Sample.parserOf Sample.dynSchema in
  let stringMap := Sample.record [("id", AnyNumber "7"); ("vector", Sample.vec2)] in
  NewRowParser Sample.dynSchema = Ok r
  /\ size (id2Field r) = length (Fields Sample.dynSchema)
  /\ exists row, @Parse Sample.lib range_rev r (AnyMap stringMap) = Ok row
                 /\ row !! 100 = Some (V_int64 7).
Proof.
  cbn zeta. split; [reflexivity|]. split; [reflexivity|].
  set (r := Sample.parserOf Sample.dynSchema).
  set (stringMap := Sample.record _).
  assert (Hrun : isOk (@Parse Sample.lib range_rev r (AnyMap stringMap)) = true)
    by reflexivity.
  destruct (@Parse Sample.lib range_rev r (AnyMap stringMap)) as [row|e] eqn:Hrow;
    [|discriminate Hrun].
  exists row. split; [reflexivity|].
  destruct (@row_values Sample.lib range_rev Sample.dynSchema r stringMap row
              eq_refl eq_refl Hrow "id" (AnyNumber "7") 100 eq_refl eq_refl)
    as (data & Hdata & Hslot).
  rewrite Hslot. f_equal.
  assert (Hrun' : @parseEntity Sample.lib r 100 (AnyNumber "7") = Ok (V_int64 7))
    by reflexivity.
  congruence.
Defined.

(** X14: which records are accepted, whatever the order of visit.  A value
    that is no key/value map is refused as such.  A map is decoded
    successfully exactly when it does not supply an auto-generated primary
    key, each of its pairs is accepted on its own, every explicit field is
    named by one of its keys, and its extra pairs, if any, are accepted by
    the dynamic field's type. *)
Theorem Parse_accepts `{L : GoLib} (rng : MapRange) (r : rowParser) (raw : any) :
  (typeOf raw <> T_map -> Parse rng r raw = Err NotKeyValueMap)
  /\ (is_Ok (Parse rng r raw)
      <-> exists stringMap,
            raw = AnyMap stringMap
            /\ pkSupplied r stringMap = false
            /\ (forall k v, stringMap !! k = Some v -> pairOk r (k, v) = true)
            /\ (forall n id, name2FieldID r !! n = Some id ->
                  exists k, is_Some (stringMap !! k) /\ name2FieldID r !! k = Some id)
            /\ (is_Some (dynamicField r) -> extraPairs r stringMap <> ∅ ->
                is_Ok (parseEntity r (GetFieldID (dynamicField r))
                         (AnyMap (extraPairs r stringMap))))).
Proof.
  split.
  - intros Hshape. destruct raw; try reflexivity. contradiction.
  - split.
    + intros [row Hrow]. destruct raw as [| | | | |stringMap];
        try discriminate Hrow.
      exists stringMap. split; [reflexivity|].
      apply Parse_Ok in Hrow as (Hpk & row0 & dyn0 & Hloop & Hreq & Hfinal).
      split; [exact Hpk|]. repeat apply conj.
      * apply (proj1 (pairs_accepted rng r stringMap)).
        apply (parsePairs_is_Ok r _ (∅, ∅)). eexists; exact Hloop.
      * intros n id Hn.
        destruct (proj1 (parsePairs_row_is_Some r _ _ _ id Hloop) (Hreq n id Hn))
          as (k & v & Hin & Hk).
        exists k. split; [|exact Hk].
        exists v. apply elem_of_range in Hin. exact Hin.
      * intros [d Hd] Hextra. rewrite Hd in Hfinal.
        apply (parsePairs_dyn r stringMap) in Hloop; [|apply range_perm]. subst dyn0.
        assert (Hok : is_Ok (combineDynamicRow r (extraPairs r stringMap) row0))
          by (eexists; exact Hfinal).
        apply combineDynamicRow_is_Ok in Hok as [Hc|Hok]; [contradiction | exact Hok].
    + intros (stringMap & -> & Hpk & Hpairs & Hreq & Hextra).
      apply (proj2 (pairs_accepted rng r stringMap)) in Hpairs.
      apply (parsePairs_is_Ok r _ (∅, ∅)) in Hpairs as [[row0 dyn0] Hloop].
      rewrite (Parse_after_loop rng r stringMap row0 dyn0 Hpk Hloop).
      destruct (proj2 (checkFields_is_Ok row0 (range_of rng (name2FieldID r))))
        as [[] ->].
      { intros n id Hin. apply elem_of_range in Hin.
        apply (parsePairs_row_is_Some r _ _ _ id Hloop).
        destruct (Hreq n id Hin) as (k & [v Hv] & Hk). exists k, v.
        split; [apply elem_of_range, Hv | exact Hk]. }
      cbn [mbind Result_bind].
      destruct (dynamicField r) as [d|] eqn:Hd; [|eexists; reflexivity].
      apply combineDynamicRow_is_Ok.
      apply (parsePairs_dyn r stringMap) in Hloop; [|apply range_perm]. subst dyn0.
      destruct (decide (extraPairs r stringMap = ∅)) as [He|Hne]; [left; exact He|].
      right. rewrite Hd.
      apply Hextra; [eexists; reflexivity | exact Hne].
Qed.

Lemma Parse_accepts_witness :
  @Parse Sample.lib range_fwd (Sample.parserOf Sample.dynSchema)
    (AnySlice [AnyMap ∅]) = Err NotKeyValueMap.
Proof.
  apply (proj1 (@Parse_accepts Sample.lib range_fwd
                  (Sample.parserOf Sample.dynSchema) (AnySlice [AnyMap ∅]))).
  discriminate.
Defined.

(** X15: decoding stops at the first pair it refuses and returns that
    pair's error unchanged: the coercion error of the value when the key
    names an explicit field, the schema violation for the dynamic field's
    own name, or the one for an undefined field.  The pairs after it are
    not looked at. *)
Theorem first_refused_pair_decides `{L : GoLib} (rng : MapRange) (r : rowParser)
    (stringMap : gmap string any) (pre post : list (string * any))
    (k : string) (v : any) :
  pkSupplied r stringMap = false ->
  range_of rng stringMap = (pre ++ (k, v) :: post)%list ->
  forallb (pairOk r) pre = true ->
  pairOk r (k, v) = false ->
  exists e,
    Parse rng r (AnyMap stringMap) = Err e
    /\ match name2FieldID r !! k with
       | Some fieldID => parseEntity r fieldID v = Err e
       | None =>
           match dynamicField r with
           | Some d => k = Name d /\ e = DynamicFieldSpecified k
           | None => e = FieldNotDefined k
           end
       end.
Proof.
  intros Hpk Hrange Hpre Hbad.
  assert (Hstep : exists e,
             (forall st, parsePair r st (k, v) = Err e)
             /\ match name2FieldID r !! k with
                | Some fieldID => parseEntity r fieldID v = Err e
                | None =>
                    match dynamicField r with
                    | Some d => k = Name d /\ e = DynamicFieldSpecified k
                    | None => e = FieldNotDefined k
                    end
                end).
  { unfold pairOk in Hbad. unfold parsePair. cbn in Hbad.
    destruct (name2FieldID r !! k) as [fieldID|].
    - destruct (parseEntity r fieldID v) as [data|e]; [discriminate Hbad|].
      exists e. split; [|reflexivity]. intros [row dyn]. reflexivity.
    - destruct (dynamicField r) as [d|].
      + destruct (decide (k = Name d)) as [Heq|Hne].
        * exists (DynamicFieldSpecified k). split; [|auto].
          intros [row dyn]. reflexivity.
        * rewrite bool_decide_eq_false_2 in Hbad by exact Hne. discriminate Hbad.
      + exists (FieldNotDefined k). split; [|reflexivity].
        intros [row dyn]. reflexivity. }
  destruct Hstep as (e & Hstep & Hshape). exists e. split; [|exact Hshape].
  rewrite Parse_unfold, Hpk, Hrange, foldM_app.
  apply (parsePairs_is_Ok r pre (∅, ∅)) in Hpre as [st ->]. cbn.
  rewrite (Hstep st). reflexivity.
Qed.

Lemma first_refused_pair_decides_witness :
  let r := Sample.parserOf Sample.dynSchema in
  let stringMap := Sample.record [("id", AnyNumber "1"); ("vector", AnyString "v");
                                  ("$meta", AnyNil)] in
  pkSupplied r stringMap = false
  /\ range_of range_fwd stringMap
     = [("id", AnyNumber "1"); ("vector", AnyString "v"); ("$meta", AnyNil)]
  /\ @Parse Sample.lib range_fwd r (AnyMap stringMap)
     = Err (TypeError DataType_FloatVector "vector" (AnyString "v")).
Proof.
  cbn zeta. split; [reflexivity|]. split; [reflexivity|].
  destruct (@first_refused_pair_decides Sample.lib range_fwd
              (Sample.parserOf Sample.dynSchema)
              (Sample.record [("id", AnyNumber "1"); ("vector", AnyString "v");
                              ("$meta", AnyNil)])
              [("id", AnyNumber "1")] [("$meta", AnyNil)] "vector" (AnyString "v")
              eq_refl eq_refl eq_refl eq_refl) as (e & -> & He).
  f_equal. cbn in He. injection He as <-. reflexivity.
Defined.

(** X16: the empty record.  It is accepted only by an index with no
    explicit field, giving the empty row, or the row that holds just the
    string of the empty object under the dynamic field's ID; otherwise it is
    refused for a missing field, one of the explicit fields being named. *)
Theorem empty_record `{L : GoLib} (rng : MapRange) (r : rowParser) :
  (name2FieldID r = ∅ ->
   Parse rng r (AnyMap ∅)
   = Ok (match dynamicField r with
         | None => ∅
         | Some d => <[FieldID d := V_string "{}"]> ∅
         end))
  /\ (name2FieldID r <> ∅ ->
      exists n id, name2FieldID r !! n = Some id
                   /\ Parse rng r (AnyMap ∅) = Err (FieldMissed n)).
Proof.
  assert (Hpk : pkSupplied r ∅ = false).
  { unfold pkSupplied. rewrite lookup_empty, bool_decide_eq_false_2; [reflexivity|].
    intros [? [=]]. }
  assert (Hloop : foldM (parsePair r) (range_of rng (∅ : gmap string any)) (∅, ∅)
                  = Ok (∅, ∅)) by (rewrite range_empty; reflexivity).
  pose proof (Parse_after_loop rng r ∅ ∅ ∅ Hpk Hloop) as Hparse. split.
  - intros Hnone. rewrite Hparse, Hnone, range_empty. cbn.
    destruct (dynamicField r) as [d|] eqn:Hd; [|reflexivity].
    rewrite combineDynamicRow_empty, Hd. reflexivity.
  - intros Hsome.
    destruct (range_of rng (name2FieldID r)) as [|[n id] rest] eqn:Hrange.
    + exfalso. apply Hsome. apply map_to_list_empty_iff.
      apply Permutation_nil_r. rewrite <- (range_perm rng Z (name2FieldID r)), Hrange.
      reflexivity.
    + exists n, id. split.
      * apply (elem_of_range rng). rewrite Hrange. apply elem_of_cons. auto.
      * rewrite Hparse. cbn. rewrite lookup_empty. reflexivity.
Qed.

Lemma empty_record_witness :
  let r := Sample.parserOf Sample.plainSchema in
  name2FieldID r <> ∅
  /\ exists n, @Parse Sample.lib range_fwd r (AnyMap ∅) = Err (FieldMissed n).
Proof.
  cbn zeta.
  assert (Hne : name2FieldID (Sample.parserOf Sample.plainSchema) <> ∅).
  { intros Heq.
    assert (Hx : name2FieldID (Sample.parserOf Sample.plainSchema) !! "id" = Some 100)
      by reflexivity.
    rewrite Heq in Hx. discriminate Hx. }
  split; [exact Hne|].
  destruct (proj2 (@empty_record Sample.lib range_fwd
                     (Sample.parserOf Sample.plainSchema)) Hne)
    as (n & id & _ & Herr).
  exists n. exact Herr.
Defined.

(** X17: which lists a vector field accepts.  A list is accepted exactly
    when its length, scaled as the encoding has it (times 8 for a binary
    vector, as it is for a float vector, halved with the remainder dropped
    for a float16 vector), is the expected dim and every element is a
    number the encoding can hold; when the scaled length is not the dim the
    dimension error is returned without looking at the elements. *)
Theorem vector_accepts `{L : GoLib} (r : rowParser) (fieldID : Z)
    (dataType : DataType) (arr : list any) :
  GetDataType (id2Field r !! fieldID) = dataType ->
  typeutil.IsVectorType dataType = true ->
  (is_Ok (parseEntity r fieldID (AnySlice arr))
   <-> actualDim dataType arr = dim r
       /\ forallb (wellTypedElem dataType) arr = true)
  /\ (actualDim dataType arr <> dim r ->
      parseEntity r fieldID (AnySlice arr)
      = Err (DimError (dim r) (GetName (id2Field r !! fieldID)) dataType
               (actualDim dataType arr))).
Proof.
  intros Hdt Hvec. split; [|apply vector_dim_mismatch; assumption].
  split.
  - intros Hok.
    destruct (decide (actualDim dataType arr = dim r)) as [Heq|Hne].
    + split; [exact Heq|].
      apply forallb_forall. intros e He. apply list_elem_of_In in He.
      revert Hok. unfold parseEntity. rewrite Hdt.
      destruct dataType; try discriminate Hvec; cbn in Heq |- *;
        (destruct (decide _) as [Hne|_]; [contradiction|]);
        intros [v Hv]; apply bind_Ok in Hv as (vec & Hvec' & _);
        assert (Hall : is_Ok (mapM _ arr)) by (eexists; exact Hvec');
        apply mapM_is_Ok in Hall;
        rewrite Forall_forall in Hall; specialize (Hall e He).
      * apply parseByteElem_is_Ok in Hall. exact Hall.
      * apply parseFloat32Elem_is_Ok in Hall. exact Hall.
      * apply parseByteElem_is_Ok in Hall. exact Hall.
    + rewrite (vector_dim_mismatch _ _ _ _ Hdt Hvec Hne) in Hok.
      destruct Hok as [? [=]].
  - intros [Heq Hall]. eapply vector_dim_match; eassumption.
Qed.

Lemma vector_accepts_witness :
  let r := Sample.parserOf Sample.dynSchema in
  GetDataType (id2Field r !! 101) = DataType_FloatVector
  /\ typeutil.IsVectorType DataType_FloatVector = true
  /\ actualDim DataType_FloatVector [AnyString "a"; AnyNil; AnyNil] <> dim r
  /\ @parseEntity Sample.lib r 101 (AnySlice [AnyString "a"; AnyNil; AnyNil])
     = Err (DimError 2 "vector" DataType_FloatVector 3).
Proof.
  cbn zeta. split; [reflexivity|]. split; [reflexivity|].
  assert (Hne : actualDim DataType_FloatVector [AnyString "a"; AnyNil; AnyNil]
                <> dim (Sample.parserOf Sample.dynSchema)) by discriminate.
  split; [exact Hne|].
  apply (proj2 (@vector_accepts Sample.lib (Sample.parserOf Sample.dynSchema) 101
                  DataType_FloatVector [AnyString "a"; AnyNil; AnyNil]
                  eq_refl eq_refl) Hne).
Defined.

(** X18: in an index with one entry per declared field, a decoded row has
    no slot for an auto-generated primary key (unless the primary key is
    itself the dynamic field): the record may not supply it, and nothing
    else writes it. *)
Theorem auto_pk_not_in_row `{L : GoLib} (rng : MapRange) (schema : CollectionSchema)
    (r : rowParser) (stringMap : gmap string any) (row : Row) :
  NewRowParser schema = Ok r ->
  size (id2Field r) = length (Fields schema) ->
  GetAutoID (pkField r) = true ->
  (forall d, dynamicField r = Some d -> FieldID d <> GetFieldID (pkField r)) ->
  Parse rng r (AnyMap stringMap) = Ok row ->
  row !! GetFieldID (pkField r) = None.
Proof.
  intros Hnew Hsize Hauto Hdyn Hrow.
  apply eq_None_not_Some. intros Hs.
  apply (Parse_row_is_Some rng r stringMap row Hrow) in Hs as [[n Hn]|[[d Hd] Hid]].
  - apply (explicit_id_not_auto_pk schema r Hnew Hsize n _ Hauto Hn). reflexivity.
  - rewrite Hd in Hid. change (GetFieldID (Some d)) with (FieldID d) in Hid.
    apply (Hdyn d Hd). symmetry. exact Hid.
Qed.

Lemma auto_pk_not_in_row_witness :
  let r := Sample.parserOf Sample.autoSchema in
  let stringMap := Sample.record [("vector", Sample.vec2)] in
  NewRowParser Sample.autoSchema = Ok r
  /\ GetAutoID (pkField r) = true
  /\ exists row, @Parse Sample.lib range_fwd r (AnyMap stringMap) = Ok row
                 /\ row !! 100 = None.
Proof.
  cbn zeta. split; [reflexivity|]. split; [reflexivity|].
  set (r := Sample.parserOf Sample.autoSchema).
  set (stringMap := Sample.record _).
  assert (Hrun : isOk (@Parse Sample.lib range_fwd r (AnyMap stringMap)) = true)
    by reflexivity.
  destruct (@Parse Sample.lib range_fwd r (AnyMap stringMap)) as [row|e] eqn:Hrow;
    [|discriminate Hrun].
  exists row. split; [reflexivity|].
  apply (@auto_pk_not_in_row Sample.lib range_fwd Sample.autoSchema r stringMap row
           eq_refl eq_refl eq_refl); [|exact Hrow].
  intros d Hd. discriminate Hd.
Defined.
